(** * Application commands of pycord (discord/app/commands.py)

    A shallow embedding of the command layer: the validation rules, the
    option builder of slash commands, the protective callback wrappers,
    the hook and error-dispatch protocol of [ApplicationCommand], argument
    resolution of [SlashCommand._invoke], sub-command groups and the
    context-menu commands, followed by the properties proved about them.

    Conventions.
    - A Python [str] is a [string] whose characters are code points below
      256; the case tables are those of Unicode on that range.
    - A coroutine is run to completion by the single task that awaits it,
      so an [await] is a call; a cancellation delivered at an [await] is
      the exception [CancelledError] raised by the awaited call.
    - Code that raises returns [Raise e]; stateful code is a function of
      the [World] (the mutable context object and the trace of calls into
      collaborators and user code). *)

From Stdlib Require Import ZArith Lia Bool Ascii String.
From stdpp Require Import base strings list gmap.

Open Scope string_scope.
Open Scope nat_scope.

(** ** Python values and exceptions *)

(** The values that occur as parameter defaults, payload values and
    callback arguments.  [VEmpty] is the sentinel class
    [inspect.Parameter.empty]; [VEntity kind id] is a platform entity
    (member, role, channel) handed back by a guild lookup. *)
Inductive pyval : Type :=
| VNone
| VBool (b : bool)
| VInt (z : Z)
| VStr (s : string)
| VEmpty
| VEntity (kind : string) (id : Z).

#[global] Instance pyval_eq_dec : EqDecision pyval.
Proof. solve_decision. Defined.

(** Truth value of an object, as [or] and [if] test it: [None], [False],
    [0] and the empty string are false; a class and an entity are true. *)
Definition truthy (v : pyval) : bool :=
  match v with
  | VNone => false
  | VBool b => b
  | VInt z => negb (z =? 0)%Z
  | VStr s => negb (String.eqb s "")
  | VEmpty => true
  | VEntity _ _ => true
  end.

(** [a or b] *)
Definition py_or (a b : pyval) : pyval := if truthy a then a else b.

(** [v == inspect.Parameter.empty]: only the sentinel equals itself. *)
Definition is_empty (v : pyval) : bool :=
  match v with VEmpty => true | _ => false end.

(** The exception classes the module raises, catches or lets through.
    [ApplicationCommandError], [CheckFailure] and
    [ApplicationCommandInvokeError] form the command-error family;
    [BaseExc] stands for the classes outside [Exception]
    (KeyboardInterrupt, SystemExit). *)
Inductive exn : Type :=
| CancelledError
| ApplicationCommandError (msg : string)
| CheckFailure (msg : string)
| ApplicationCommandInvokeError (original : exn)
| NotFound
| ClientException (msg : string)
| ValidationError (msg : string)
| TypeError (msg : string)
| ValueError
| AttributeError
| KeyError (key : string)
| Exception (msg : string)
| BaseExc (name : string).

#[global] Instance exn_eq_dec : EqDecision exn.
Proof. solve_decision. Defined.

(** [isinstance(e, ApplicationCommandError)] *)
Definition is_command_error (e : exn) : bool :=
  match e with
  | ApplicationCommandError _ | CheckFailure _
  | ApplicationCommandInvokeError _ => true
  | _ => false
  end.

(** [isinstance(e, asyncio.CancelledError)] *)
Definition is_cancelled (e : exn) : bool :=
  match e with CancelledError => true | _ => false end.

(** [isinstance(e, Exception)] *)
Definition is_exception (e : exn) : bool :=
  match e with BaseExc _ => false | _ => true end.

(** [isinstance(e, NotFound)] *)
Definition is_not_found (e : exn) : bool :=
  match e with NotFound => true | _ => false end.

Inductive result (A : Type) : Type :=
| Ok (a : A)
| Raise (e : exn).
Arguments Ok {A} a.
Arguments Raise {A} e.

Definition is_ok {A} (r : result A) : bool :=
  match r with Ok _ => true | Raise _ => false end.

(** ** Validation rules *)

Module Validation.

(** [Py_UNICODE_ISUPPER] on code points below 256. *)
Definition char_isupper (c : ascii) : bool :=
  let n := nat_of_ascii c in
  ((65 <=? n) && (n <=? 90))
  || ((192 <=? n) && (n <=? 222) && negb (n =? 215)).

(** [Py_UNICODE_ISLOWER] on code points below 256 (the letters, the
    ordinal indicators 170 and 186, and the micro sign 181). *)
Definition char_islower (c : ascii) : bool :=
  let n := nat_of_ascii c in
  ((97 <=? n) && (n <=? 122))
  || (n =? 170) || (n =? 181) || (n =? 186)
  || ((223 <=? n) && (n <=? 255) && negb (n =? 247)).

(** The loop of [str.islower]: an uppercase character answers [False];
    otherwise the answer is whether a lowercase character was seen. *)
Fixpoint islower_loop (s : string) (cased : bool) : bool :=
  match s with
  | EmptyString => cased
  | String c s' =>
      if char_isupper c then false
      else islower_loop s' (cased || char_islower c)
  end.

Definition islower (s : string) : bool := islower_loop s false.

(** [" " in s] *)
Fixpoint contains_space (s : string) : bool :=
  match s with
  | EmptyString => false
  | String c s' => (nat_of_ascii c =? 32) || contains_space s'
  end.

Definition len (s : string) : nat := String.length s.

Definition validate_chat_input_name (name : pyval) : result unit :=
  match name with
  | VStr s =>
      if contains_space s then
        Raise (ValidationError "Name of a chat input command cannot have spaces.")
      else if negb (islower s) then
        Raise (ValidationError "Name of a chat input command must be lowercase.")
      else if (32 <? len s) || (len s <? 1) then
        Raise (ValidationError
          "Name of a chat input command must be less than 32 characters and non empty.")
      else Ok tt
  | _ => Raise (TypeError "Name of a command must be a string.")
  end.

Definition validate_chat_input_description (description : pyval) : result unit :=
  match description with
  | VStr s =>
      if (100 <? len s) || (len s <? 1) then
        Raise (ValidationError
          "Description of a chat input command must be less than 100 characters and non empty.")
      else Ok tt
  | _ => Raise (TypeError "Description of a command must be a string.")
  end.

(** The reading of "compliant name" that the prose suggests: between 1
    and 32 characters, no uppercase character, no space. *)
Definition has_upper (s : string) : bool :=
  existsb char_isupper (list_ascii_of_string s).

Definition has_lower (s : string) : bool :=
  existsb char_islower (list_ascii_of_string s).


End Validation.

(** ** Wire values *)

(** What [to_dict] produces: a dictionary is a finite map keyed by
    strings. *)
#[warnings="-register-all"]
Inductive json : Type :=
| JNull
| JBool (b : bool)
| JInt (z : Z)
| JStr (s : string)
| JList (l : list json)
| JDict (d : gmap string json).

(** A Python value as it is sent over the wire. *)
Definition json_of_pyval (v : pyval) : json :=
  match v with
  | VNone | VEmpty => JNull
  | VBool b => JBool b
  | VInt z => JInt z
  | VStr s => JStr s
  | VEntity _ id => JInt id
  end.

(** ** The option model *)

Module Options.

(** Modelled from the spec: the enumeration [SlashCommandOptionType] of
    discord/enums.py, which is not among the sources.  The members are
    the platform's option kinds with their numeric wire values; the
    types user, channel and role are exactly the closed range from
    [user] to [role]. *)
Inductive SlashCommandOptionType : Type :=
| sub_command | sub_command_group | string_type | integer | boolean
| user | channel | role | mentionable | number.

#[global] Instance SlashCommandOptionType_eq_dec :
  EqDecision SlashCommandOptionType.
Proof. solve_decision. Defined.

(** [t.value] *)
Definition value (t : SlashCommandOptionType) : Z :=
  match t with
  | sub_command => 1 | sub_command_group => 2 | string_type => 3
  | integer => 4 | boolean => 5 | user => 6 | channel => 7 | role => 8
  | mentionable => 9 | number => 10
  end%Z.

(** [t.name] *)
Definition type_name (t : SlashCommandOptionType) : string :=
  match t with
  | sub_command => "sub_command" | sub_command_group => "sub_command_group"
  | string_type => "string" | integer => "integer" | boolean => "boolean"
  | user => "user" | channel => "channel" | role => "role"
  | mentionable => "mentionable" | number => "number"
  end.

(** The classes an annotation can name. *)
Inductive datatype : Type :=
| DtStr | DtInt | DtBool | DtFloat
| DtMember | DtUser | DtChannel | DtRole | DtMentionable
| DtNoneType
| DtOther (name : string).

#[global] Instance datatype_eq_dec : EqDecision datatype.
Proof. solve_decision. Defined.

(** Modelled from the spec: [SlashCommandOptionType.from_datatype] of
    discord/enums.py, the fixed table from a native type to an option
    type (string to the string type, int to the integer type, and so
    on); an unrecognised class defaults to the string type. *)
Definition from_datatype (d : datatype) : SlashCommandOptionType :=
  match d with
  | DtStr => string_type
  | DtInt => integer
  | DtBool => boolean
  | DtFloat => number
  | DtMember | DtUser => user
  | DtChannel => channel
  | DtRole => role
  | DtMentionable => mentionable
  | DtNoneType | DtOther _ => string_type
  end.

Record OptionChoice : Type := mkOptionChoice {
  c_name : string;
  c_value : pyval
}.

(** [OptionChoice(name, value=None)]: [self.value = value or name]. *)
Definition OptionChoice_init (name : string) (value : pyval) : OptionChoice :=
  {| c_name := name; c_value := py_or value (VStr name) |}.

Definition OptionChoice_to_dict (c : OptionChoice) : json :=
  JDict (<["name" := JStr (c_name c)]>
         (<["value" := json_of_pyval (c_value c)]> ∅)).

(** An element of the [choices] keyword: already a choice, or a bare
    name to wrap. *)
Inductive choice_arg : Type :=
| ChoiceObj (c : OptionChoice)
| ChoiceRaw (name : string).

Record Option : Type := mkOption {
  o_name : option string;
  o_description : string;
  o_input_type : SlashCommandOptionType;
  o_required : bool;
  o_choices : list OptionChoice;
  o_default : pyval
}.

(** The first positional argument of [Option]: a member of the
    enumeration, or a class to look up in the table. *)
Inductive type_arg : Type :=
| TaEnum (t : SlashCommandOptionType)
| TaData (d : datatype).

(** [Option.__init__(input_type, /, description=None, **kwargs)]; a
    keyword that is not passed is [None] here. *)
Definition Option_init (input_type : type_arg) (description : option string)
    (kw_name : option string) (kw_required : option bool)
    (kw_choices : list choice_arg) (kw_default : option pyval) : Option :=
  {| o_name := kw_name;
     o_description :=
       match description with
       | Some d => if String.eqb d "" then "No description provided" else d
       | None => "No description provided"
       end;
     o_input_type :=
       match input_type with
       | TaEnum t => t
       | TaData d => from_datatype d
       end;
     o_required := match kw_required with Some r => r | None => true end;
     o_choices :=
       map (fun o => match o with
                     | ChoiceObj c => c
                     | ChoiceRaw n => OptionChoice_init n VNone
                     end) kw_choices;
     o_default := match kw_default with Some d => d | None => VNone end |}.

Definition Option_to_dict (o : Option) : json :=
  JDict (<["name" := match o_name o with Some n => JStr n | None => JNull end]>
         (<["description" := JStr (o_description o)]>
         (<["type" := JInt (value (o_input_type o))]>
         (<["required" := JBool (o_required o)]>
         (<["choices" := JList (map OptionChoice_to_dict (o_choices o))]> ∅))))).

Definition set_required (r : bool) (o : Option) : Option :=
  {| o_name := o_name o; o_description := o_description o;
     o_input_type := o_input_type o; o_required := r;
     o_choices := o_choices o; o_default := o_default o |}.

Definition set_default (d : pyval) (o : Option) : Option :=
  {| o_name := o_name o; o_description := o_description o;
     o_input_type := o_input_type o; o_required := o_required o;
     o_choices := o_choices o; o_default := d |}.

Definition set_name (n : option string) (o : Option) : Option :=
  {| o_name := n; o_description := o_description o;
     o_input_type := o_input_type o; o_required := o_required o;
     o_choices := o_choices o; o_default := o_default o |}.

End Options.

(** ** The world: the context object and the trace *)

(** One element of [data["options"]] of a slash-command payload: the key
    "name" and, unless the element is a nested block, the key "value". *)
Record Arg : Type := mkArg {
  arg_name : string;
  arg_value : option pyval
}.

(** The fields of the interaction context that this module reads and
    writes.  [data_options] is the key "options" of
    [ctx.interaction.data], absent when [None]. *)
Record Context : Type := mkContext {
  ctx_command : option string;
  command_failed : bool;
  data_options : option (list Arg)
}.

(** Every call the module makes into user code or into a collaborator,
    in order, and every entry into [call_after_hooks]. *)
Inductive Event : Type :=
| EvBotCanRun
| EvPredicate (i : nat)
| EvBeforeInvoke (with_instance : bool)
| EvCogBeforeInvoke
| EvBotBeforeInvoke
| EvCallAfterHooks
| EvAfterInvoke (with_instance : bool)
| EvCogAfterInvoke
| EvBotAfterInvoke
| EvOnError (with_cog : bool) (error : exn)
| EvCogCommandError (error : exn)
| EvDispatch (event : string) (failed : bool) (error : exn)
| EvGetOrFetch (attr : string) (id : Z)
| EvCallback (kwargs : gmap string pyval).

Record World : Type := mkWorld {
  ctx : Context;
  trace : list Event
}.

(** Stateful, fallible code. *)
Definition M (A : Type) : Type := World -> result A * World.

Definition ret {A} (a : A) : M A := fun w => (Ok a, w).

Definition raise {A} (e : exn) : M A := fun w => (Raise e, w).

Definition bind {A B} (m : M A) (k : A -> M B) : M B :=
  fun w =>
    match m w with
    | (Ok a, w') => k a w'
    | (Raise e, w') => (Raise e, w')
    end.

Notation "x <- m ;; k" := (bind m (fun x => k))
  (at level 100, m at next level, right associativity).
Notation "m ;;; k" := (bind m (fun _ => k))
  (at level 100, right associativity).

(** [try: body finally: cleanup]: the cleanup always runs; when it raises,
    its exception replaces the outcome of the body. *)
Definition try_finally {A} (body : M A) (cleanup : M unit) : M A :=
  fun w =>
    match body w with
    | (r, w1) =>
        match cleanup w1 with
        | (Ok _, w2) => (r, w2)
        | (Raise e, w2) => (Raise e, w2)
        end
    end.

Definition log (ev : Event) : M unit :=
  fun w => (Ok tt, {| ctx := ctx w; trace := trace w ++ [ev] |}).

Definition get_ctx : M Context := fun w => (Ok (ctx w), w).

Definition set_ctx (c : Context) : M unit :=
  fun w => (Ok tt, {| ctx := c; trace := trace w |}).

(** A call into user code or a collaborator: the call is recorded, and
    its outcome is what the callee answers on the current context.  The
    callee is taken not to write the fields of the context listed in
    [Context]; what the properties below say about the context after such
    a call is said of the writes of this module only. *)
Definition call {A} (ev : Event) (f : Context -> result A) : M A :=
  fun w => (f (ctx w), {| ctx := ctx w; trace := trace w ++ [ev] |}).

Definition is_after_hooks_entry (ev : Event) : bool :=
  match ev with EvCallAfterHooks => true | _ => false end.

Definition is_dispatch (ev : Event) : bool :=
  match ev with EvDispatch _ _ _ => true | _ => false end.

(** How many times [call_after_hooks] was entered. *)
Definition after_hooks_runs (w : World) : nat :=
  length (List.filter is_after_hooks_entry (trace w)).

(** ** The protective wrappers *)

(** The [except] clauses shared by both wrappers, in their order: a
    command error passes through, a cancellation ends the call with
    [None], any other [Exception] is wrapped. *)
Definition protect (r : result pyval) : result pyval :=
  match r with
  | Ok v => Ok v
  | Raise e =>
      if is_command_error e then Raise e
      else if is_cancelled e then Ok VNone
      else if is_exception e then Raise (ApplicationCommandInvokeError e)
      else Raise e
  end.

Definition wrap_callback (coro : M pyval) : M pyval :=
  fun w => match coro w with (r, w') => (protect r, w') end.

(** ** The command base *)

Definition hook_fn : Type := Context -> result unit.
Definition error_fn : Type := Context -> exn -> result unit.

(** A registered local hook; [h_self] tells whether the coroutine is a
    bound method (has [__self__]). *)
Record Hook : Type := mkHook {
  h_self : bool;
  h_run : hook_fn
}.

(** The owning cog: each field is what [_get_overridden_method] answers
    for the hook, [None] when the cog does not override it. *)
Record Cog : Type := mkCog {
  cog_command_error : option error_fn;
  cog_before_invoke : option hook_fn;
  cog_after_invoke : option hook_fn
}.

(** What the module uses of [ctx.bot]. *)
Record Bot : Type := mkBot {
  bot_can_run : Context -> result bool;
  bot_before_invoke : option hook_fn;
  bot_after_invoke : option hook_fn
}.

(** The attributes every command kind has.  [on_error] is [None] when the
    attribute was never set. *)
Record ApplicationCommand : Type := mkApplicationCommand {
  name : string;
  cog : option Cog;
  checks : list (Context -> result bool);
  on_error : option error_fn;
  _before_invoke : option Hook;
  _after_invoke : option Hook
}.

(** Modelled from the spec: [async_all] of discord/utils.py, which is not
    among the sources: the conjunction of the predicates, evaluated in
    order and stopping at the first that is false or raises. *)
Fixpoint async_all (i : nat) (predicates : list (Context -> result bool)) : M bool :=
  match predicates with
  | [] => ret true
  | p :: rest =>
      b <- call (EvPredicate i) p ;;
      if b then async_all (S i) rest else ret false
  end.

Definition can_run (bot : Bot) (self : ApplicationCommand) : M bool :=
  ok <- call EvBotCanRun (bot_can_run bot) ;;
  if negb ok then
    raise (CheckFailure ("The global check functions for command " ++ name self ++ " failed."))
  else
    match checks self with
    | [] => ret true
    | predicates => async_all 0 predicates
    end.

Definition call_opt (ev : Event) (h : option hook_fn) : M unit :=
  match h with
  | Some f => call ev f
  | None => ret tt
  end.

Definition call_before_hooks (bot : Bot) (self : ApplicationCommand) : M unit :=
  match _before_invoke self with
  | Some h => call (EvBeforeInvoke (h_self h || bool_decide (is_Some (cog self)))) (h_run h)
  | None => ret tt
  end ;;;
  match cog self with
  | Some c => call_opt EvCogBeforeInvoke (cog_before_invoke c)
  | None => ret tt
  end ;;;
  call_opt EvBotBeforeInvoke (bot_before_invoke bot).

Definition call_after_hooks (bot : Bot) (self : ApplicationCommand) : M unit :=
  log EvCallAfterHooks ;;;
  match _after_invoke self with
  | Some h => call (EvAfterInvoke (h_self h || bool_decide (is_Some (cog self)))) (h_run h)
  | None => ret tt
  end ;;;
  match cog self with
  | Some c => call_opt EvCogAfterInvoke (cog_after_invoke c)
  | None => ret tt
  end ;;;
  call_opt EvBotAfterInvoke (bot_after_invoke bot).

(** The coroutine that [hooked_wrapped_callback(command, ctx, coro)]
    returns, applied to its argument. *)
Definition hooked_wrapped_callback (bot : Bot) (command : ApplicationCommand)
    (coro : M pyval) : M pyval :=
  try_finally (wrap_callback coro) (call_after_hooks bot command).

Definition prepare (bot : Bot) (self : ApplicationCommand) : M unit :=
  c <- get_ctx ;;
  set_ctx {| ctx_command := Some (name self);
             command_failed := command_failed c;
             data_options := data_options c |} ;;;
  ok <- can_run bot self ;;
  if negb ok then
    raise (CheckFailure ("The check functions for the command " ++ name self ++ " failed"))
  else call_before_hooks bot self.

(** [invoke]; [_invoke] is the step each command kind supplies. *)
Definition invoke (bot : Bot) (self : ApplicationCommand) (_invoke : M pyval) : M pyval :=
  prepare bot self ;;;
  hooked_wrapped_callback bot self _invoke ;;;
  ret VNone.

(** [ctx.command_failed = True] *)
Definition mark_failed (c : Context) : Context :=
  {| ctx_command := ctx_command c;
     command_failed := true;
     data_options := data_options c |}.

(** What a registered handler answers when it is awaited: its return
    value is dropped. *)
Definition run_handler (coro : error_fn) (error : exn) (c : Context) : result pyval :=
  match coro c error with
  | Ok _ => Ok VNone
  | Raise e => Raise e
  end.

Definition dispatch_error (bot : Bot) (self : ApplicationCommand) (error : exn) : M pyval :=
  c <- get_ctx ;;
  set_ctx (mark_failed c) ;;;
  match on_error self with
  | None => ret VNone
  | Some coro =>
      wrap_callback
        (call (EvOnError (bool_decide (is_Some (cog self))) error)
              (run_handler coro error))
  end ;;;
  try_finally
    (match cog self with
     | Some cg =>
         match cog_command_error cg with
         | Some local =>
             wrap_callback
               (call (EvCogCommandError error) (run_handler local error))
         | None => ret VNone
         end
     | None => ret VNone
     end)
    (c' <- get_ctx ;;
     log (EvDispatch "application_command_error" (command_failed c') error)) ;;;
  ret VNone.

(** ** Slash commands *)

Module Slash.
Import Options.

(** What an annotation of a callback parameter can be. *)
Inductive annotation : Type :=
| AnnEmpty
| AnnType (t : datatype)
| AnnUnion (args : list datatype)
| AnnEnum (t : SlashCommandOptionType)
| AnnOption (o : Option).

(** An [inspect.Parameter]; [p_default] is [VEmpty] when the parameter
    declares no default. *)
Record Param : Type := mkParam {
  p_name : string;
  p_annotation : annotation;
  p_default : pyval
}.

Definition dq : string := String (ascii_of_nat 34) EmptyString.

Definition missing_parameter (command param : string) : exn :=
  ClientException
    ("Callback for " ++ command ++ " command is missing "
       ++ dq ++ param ++ dq ++ " parameter.").

(** [_is_typing_optional]: the origin is [Union] and [NoneType] is one of
    the arguments. *)
Definition _is_typing_optional (a : annotation) : bool :=
  match a with
  | AnnUnion args => bool_decide (DtNoneType ∈ args)
  | _ => false
  end.

(** [option.__args__[0]] of a union. *)
Definition first_arg (a : annotation) : datatype :=
  match a with
  | AnnUnion (t :: _) => t
  | _ => DtOther "Union"
  end.

(** [Option(option, "No description provided")] on an annotation that is
    not an [Option]; a union without [None] is a class the table does not
    know. *)
Definition wrap_annotation (a : annotation) : Option :=
  let ta := match a with
            | AnnEnum t => TaEnum t
            | AnnType d => TaData d
            | AnnEmpty => TaData DtStr
            | AnnUnion _ => TaData (DtOther "Union")
            | AnnOption o => TaEnum (o_input_type o)
            end in
  Option_init ta (Some "No description provided") None None [] None.

(** The body of the loop of [parse_options] for one parameter. *)
Definition parse_option (p : Param) : Option :=
  let option0 :=
    match p_annotation p with
    | AnnEmpty => AnnType DtStr
    | a => a
    end in
  let option1 :=
    if _is_typing_optional option0 then
      AnnOption (Option_init (TaData (first_arg option0))
                   (Some "No description provided") None (Some false) [] None)
    else option0 in
  let option2 :=
    match option1 with
    | AnnOption o => o
    | a =>
        let o := wrap_annotation a in
        if negb (is_empty (p_default p)) then set_required false o else o
    end in
  let option3 := set_default (py_or (o_default option2) (p_default p)) option2 in
  let option4 :=
    if is_empty (o_default option3) then set_default VNone option3 else option3 in
  match o_name option4 with
  | None => set_name (Some (p_name p)) option4
  | Some _ => option4
  end.

(** [parse_options]: [cog] and [name] are the attributes of the command
    it reads. *)
Definition parse_options {C} (cog : option C) (name : string)
    (params : list Param) : result (list Option) :=
  let after_self :=
    match cog with
    | Some _ =>
        match params with
        | [] => Raise (missing_parameter name "self")
        | _ :: rest => Ok rest
        end
    | None => Ok params
    end in
  match after_self with
  | Raise e => Raise e
  | Ok ps =>
      match ps with
      | [] => Raise (missing_parameter name "ctx")
      | _ :: rest => Ok (map parse_option rest)
      end
  end.

Record SlashCommand : Type := mkSlashCommand {
  base : ApplicationCommand;
  description : string;
  guild_ids : option (list Z);
  options : list Option;
  is_subcommand : bool;
  callback : Context -> gmap string pyval -> result pyval
}.

Definition to_dict (self : SlashCommand) : json :=
  let as_dict : gmap string json :=
    <["name" := JStr (name (base self))]>
    (<["description" := JStr (description self)]>
    (<["options" := JList (map Option_to_dict (options self))]> ∅)) in
  JDict (if is_subcommand self
         then <["type" := JInt (value sub_command)]> as_dict
         else as_dict).

(** The objects a command can be compared with. *)
Inductive pyobj : Type :=
| ObjSlash (c : SlashCommand)
| ObjOption (o : Option)
| ObjVal (v : pyval).

(** [SlashCommand.__eq__(self, other)] *)
Definition eq (self : SlashCommand) (other : pyobj) : bool :=
  match other with
  | ObjSlash o =>
      String.eqb (name (base o)) (name (base self))
      && String.eqb (description o) (description self)
  | _ => false
  end.

(** What the module needs from outside to resolve arguments: the
    lookup [get_or_fetch(ctx.guild, attr, id)] of discord/utils.py and
    the builtin [int] on strings. *)
Record Env : Type := mkEnv {
  get_or_fetch : string -> Z -> result pyval;
  int_of_str : string -> result Z
}.

(** [int(arg)] *)
Definition py_int (env : Env) (v : pyval) : result Z :=
  match v with
  | VInt z => Ok z
  | VBool b => Ok (if b then 1 else 0)%Z
  | VStr s => int_of_str env s
  | VNone | VEmpty | VEntity _ _ =>
      Raise (TypeError "int() argument must be a string, a bytes-like object or a number")
  end.

Definition lift {A} (r : result A) : M A := fun w => (r, w).

Definition fetch (env : Env) (attr : string) (v : pyval) : M pyval :=
  id <- lift (py_int env v) ;;
  call (EvGetOrFetch attr id) (fun _ => get_or_fetch env attr id).

(** [try: body except NotFound: handler] *)
Definition except_not_found {A} (body handler : M A) : M A :=
  fun w =>
    match body w with
    | (Raise e, w') => if is_not_found e then handler w' else (Raise e, w')
    | ok => ok
    end.

(** [find(lambda x: x.name == n, self.options)] *)
Definition find_option (n : string) (opts : list Option) : option Option :=
  List.find (fun x => bool_decide (o_name x = Some n)) opts.

(** The body of the first loop of [_invoke] for one payload element:
    the value to store under the element's name. *)
Definition resolve (env : Env) (opts : list Option) (a : Arg) : M pyval :=
  let op := find_option (arg_name a) opts in
  match arg_value a with
  | None => raise (KeyError "value")
  | Some arg =>
      match op with
      | None => raise AttributeError
      | Some op =>
          if ((value user <=? value (o_input_type op))
              && (value (o_input_type op) <=? value role))%Z then
            let attr :=
              if String.eqb (type_name (o_input_type op)) "user"
              then "member" else type_name (o_input_type op) in
            fetch env attr arg
          else if bool_decide (o_input_type op = mentionable) then
            except_not_found (fetch env "member" arg) (fetch env "role" arg)
          else ret arg
      end
  end.

(** The first loop: [kwargs[op.name] = arg] for each element in turn.
    The key is the element's name, which [find] made equal to
    [op.name]. *)
Fixpoint resolve_all (env : Env) (opts : list Option) (args : list Arg)
    (kwargs : gmap string pyval) : M (gmap string pyval) :=
  match args with
  | [] => ret kwargs
  | a :: rest =>
      v <- resolve env opts a ;;
      resolve_all env opts rest (<[arg_name a := v]> kwargs)
  end.

(** The second loop: an option whose name is not a key yet gets its
    default.  An option without a name would add the key [None]. *)
Fixpoint fill_defaults (opts : list Option) (kwargs : gmap string pyval)
    : gmap string pyval :=
  match opts with
  | [] => kwargs
  | o :: rest =>
      match o_name o with
      | Some n =>
          match kwargs !! n with
          | Some _ => fill_defaults rest kwargs
          | None => fill_defaults rest (<[n := o_default o]> kwargs)
          end
      | None => fill_defaults rest kwargs
      end
  end.

Definition unnamed (o : Option) : bool :=
  match o_name o with None => true | Some _ => false end.

(** [SlashCommand._invoke]; the call [self.callback(ctx, **kwargs)]
    refuses a key that is not a string. *)
Definition _invoke (env : Env) (self : SlashCommand) : M pyval :=
  c <- get_ctx ;;
  kwargs <- resolve_all env (options self)
              (match data_options c with Some l => l | None => [] end) ∅ ;;
  let kwargs := fill_defaults (options self) kwargs in
  if existsb unnamed (options self) then
    raise (TypeError "keywords must be strings")
  else
    call (EvCallback kwargs) (fun c => callback self c kwargs) ;;;
    ret VNone.

End Slash.

(** ** Sub-command groups *)

Module Group.
Import Options.

(** An element of [subcommands]: a command, or a reference to another
    group object. *)
Inductive child : Type :=
| ChildCommand (c : Slash.SlashCommand)
| ChildGroup (ref : nat).

(** A group object: its [Option] part (name, description, input type,
    required, choices, default) and its own attributes.
    [parent_group] is a reference into the heap. *)
Record SubCommandGroup : Type := mkSubCommandGroup {
  as_option : Option;
  subcommands : list child;
  guild_ids : option (list Z);
  parent_group : option nat;
  g_checks : list (Context -> result bool);
  g_before_invoke : option Hook;
  g_after_invoke : option Hook;
  g_cog : option Cog
}.

(** The group objects that exist; a reference is an index. *)
Abbreviation Heap := (list SubCommandGroup).

(** [SubCommandGroup.__init__(name, description, guild_ids, parent_group)] *)
Definition init (name description : pyval) (guild_ids : option (list Z))
    (parent_group : option nat) : result SubCommandGroup :=
  match Validation.validate_chat_input_name name with
  | Raise e => Raise e
  | Ok _ =>
      match Validation.validate_chat_input_description description with
      | Raise e => Raise e
      | Ok _ =>
          match name, description with
          | VStr n, VStr d =>
              Ok {| as_option :=
                      Option_init (TaEnum sub_command_group) (Some d) (Some n)
                        None [] None;
                    subcommands := [];
                    guild_ids := guild_ids;
                    parent_group := parent_group;
                    g_checks := [];
                    g_before_invoke := None;
                    g_after_invoke := None;
                    g_cog := None |}
          | _, _ => Raise (TypeError "Name of a command must be a string.")
          end
      end
  end.

Definition append_child (c : child) (g : SubCommandGroup) : SubCommandGroup :=
  {| as_option := as_option g;
     subcommands := subcommands g ++ [c];
     guild_ids := guild_ids g;
     parent_group := parent_group g;
     g_checks := g_checks g;
     g_before_invoke := g_before_invoke g;
     g_after_invoke := g_after_invoke g;
     g_cog := g_cog g |}.

(** [self.command_group(name, description)] on the group at reference
    [self]: the outcome and the heap afterwards.  [None] only when
    [self] is not an object of the heap. *)
Definition command_group (h : Heap) (self : nat) (name description : pyval)
    : option (result nat * Heap) :=
  match h !! self with
  | None => None
  | Some g =>
      match parent_group g with
      | Some _ => Some (Raise (Exception "Subcommands can only be nested once"), h)
      | None =>
          match init name description None (Some self) with
          | Raise e => Some (Raise e, h)
          | Ok sub =>
              let ref := length h in
              Some (Ok ref,
                    (<[self := append_child (ChildGroup ref) g]> h
                       ++ [sub])%list)
          end
      end
  end.

(** A group's parent, when it has one, is a group without a parent. *)
Definition depth_ok (h : Heap) : Prop :=
  ∀ i g p, h !! i = Some g → parent_group g = Some p →
    ∃ gp, h !! p = Some gp ∧ parent_group gp = None.

End Group.

(** ** Context-menu commands *)

Module ContextMenu.

(** The two concrete classes. *)
Inductive kind : Type := UserCommand | MessageCommand.

(** The class attribute [type]. *)
Definition type (k : kind) : Z :=
  match k with UserCommand => 2 | MessageCommand => 3 end%Z.

(** What the constructor reads of the callback: its [__name__], whether
    it is a coroutine function, the names of its parameters, its
    [__commands_checks__] when it has the attribute, and what it does
    when called with the target. *)
Record Func : Type := mkFunc {
  f_name : string;
  f_is_coroutine : bool;
  f_params : list string;
  f_commands_checks : option (list (Context -> result bool));
  f_call : Context -> pyval -> result pyval
}.

(** The keyword arguments of the constructor; a keyword that is not
    passed is [None]. *)
Record Kwargs : Type := mkKwargs {
  kw_name : option pyval;
  kw_description : option pyval;
  kw_guild_ids : option (list Z);
  kw_checks : option (list (Context -> result bool))
}.

Record ContextMenuCommand : Type := mkContextMenuCommand {
  cls : kind;
  base : ApplicationCommand;
  description : string;
  guild_ids : option (list Z);
  callback : Context -> pyval -> result pyval
}.

Definition validate_parameters {C} (k : kind) (cog : option C) (name : string)
    (params : list string) : result unit :=
  let after_self :=
    match cog with
    | Some _ =>
        match params with
        | [] => Raise (Slash.missing_parameter name "self")
        | _ :: rest => Ok rest
        end
    | None => Ok params
    end in
  match after_self with
  | Raise e => Raise e
  | Ok [] => Raise (Slash.missing_parameter name "ctx")
  | Ok [_] =>
      Raise (Slash.missing_parameter name
               (match k with UserCommand => "user" | MessageCommand => "message" end))
  | Ok [_; _] => Ok tt
  | Ok (_ :: _ :: _ :: _) =>
      Raise (ClientException
               ("Callback for " ++ name ++ " command has too many parameters."))
  end.

(** [ContextMenuCommand.__init__(func, **kwargs)] for the class [k]. *)
Definition init (k : kind) (func : Func) (kwargs : Kwargs)
    : result ContextMenuCommand :=
  if negb (f_is_coroutine func) then
    Raise (TypeError "Callback must be a coroutine.")
  else
    match (match kw_name kwargs with Some n => n | None => VStr (f_name func) end) with
    | VStr n =>
        let checks :=
          match f_commands_checks func with
          | Some cs => rev cs
          | None => match kw_checks kwargs with Some cs => cs | None => [] end
          end in
        match validate_parameters k (@None Cog) n (f_params func) with
        | Raise e => Raise e
        | Ok _ =>
            Ok {| cls := k;
                  base := {| name := n; cog := None; checks := checks;
                             on_error := None;
                             _before_invoke := None; _after_invoke := None |};
                  description := "";
                  guild_ids := kw_guild_ids kwargs;
                  callback := f_call func |}
        end
    | _ => Raise (TypeError "Name of a command must be a string.")
    end.

Definition to_dict (self : ContextMenuCommand) : gmap string json :=
  <["name" := JStr (name (base self))]>
  (<["description" := JStr (description self)]>
  (<["type" := JInt (type (cls self))]> ∅)).

End ContextMenu.

(** ** Construction of slash commands *)

Module SlashBuild.
Import Options Slash.

(** What [SlashCommand.__init__] reads of the callback: its [__name__],
    whether it is a coroutine function, the first line of its cleaned
    docstring ([inspect.cleandoc(func.__doc__).splitlines()[0]]: absent
    when [__doc__] is [None], an exception when the docstring has no
    line), its parameters, its [__commands_checks__] when it has the
    attribute, and what it does when called. *)
Record Func : Type := mkFunc {
  f_name : string;
  f_is_coroutine : bool;
  f_doc_line : option (result string);
  f_params : list Param;
  f_commands_checks : option (list (Context -> result bool));
  f_call : Context -> gmap string pyval -> result pyval
}.

(** The keyword arguments of the constructor; a keyword that is not
    passed is [None]. *)
Record Kwargs : Type := mkKwargs {
  kw_name : option pyval;
  kw_description : option pyval;
  kw_guild_ids : option (list Z);
  kw_checks : option (list (Context -> result bool))
}.

(** [kwargs.get(key)]: [None] for a keyword that was not passed. *)
Definition kwargs_get (v : option pyval) : pyval :=
  match v with Some x => x | None => VNone end.

(** [kwargs.get("description") or (first line of the docstring if
    func.__doc__ is not None else "No description provided")]; the right
    operand is evaluated only when the left one is false. *)
Definition description_of (func : Func) (kwargs : Kwargs) : result pyval :=
  let d := kwargs_get (kw_description kwargs) in
  if truthy d then Ok d
  else
    match f_doc_line func with
    | None => Ok (VStr "No description provided")
    | Some (Ok line) => Ok (VStr line)
    | Some (Raise e) => Raise e
    end.

(** [SlashCommand.__init__(func, **kwargs)] *)
Definition init (func : Func) (kwargs : Kwargs) : result SlashCommand :=
  if negb (f_is_coroutine func) then
    Raise (TypeError "Callback must be a coroutine.")
  else
    let given := py_or (kwargs_get (kw_name kwargs)) (VStr (f_name func)) in
    match Validation.validate_chat_input_name given with
    | Raise e => Raise e
    | Ok _ =>
        match description_of func kwargs with
        | Raise e => Raise e
        | Ok description =>
            match Validation.validate_chat_input_description description with
            | Raise e => Raise e
            | Ok _ =>
                match given, description with
                | VStr n, VStr d =>
                    match parse_options (@None Cog) n (f_params func) with
                    | Raise e => Raise e
                    | Ok opts =>
                        Ok {| base :=
                                {| name := n;
                                   cog := None;
                                   checks :=
                                     match f_commands_checks func with
                                     | Some cs => rev cs
                                     | None =>
                                         match kw_checks kwargs with
                                         | Some cs => cs
                                         | None => []
                                         end
                                     end;
                                   on_error := None;
                                   _before_invoke := None;
                                   _after_invoke := None |};
                              description := d;
                              guild_ids := kw_guild_ids kwargs;
                              options := opts;
                              is_subcommand := false;
                              callback := f_call func |}
                    end
                | _, _ => Raise (TypeError "Name of a command must be a string.")
                end
            end
        end
    end.

(** [command.is_subcommand = True] *)
Definition as_subcommand (c : SlashCommand) : SlashCommand :=
  {| base := base c; description := description c; guild_ids := guild_ids c;
     options := options c; is_subcommand := true; callback := callback c |}.

(** The decorator [self.command] applied to [func] on the group at reference [self]: the
    outcome and the heap afterwards; [None] only when [self] is not an
    object of the heap. *)
Definition command (h : Group.Heap) (self : nat) (func : Func) (kwargs : Kwargs)
    : option (result SlashCommand * Group.Heap) :=
  match h !! self with
  | None => None
  | Some g =>
      match init func kwargs with
      | Raise e => Some (Raise e, h)
      | Ok c =>
          let command := as_subcommand c in
          Some (Ok command,
                <[self := Group.append_child (Group.ChildCommand command) g]> h)
      end
  end.

End SlashBuild.

(** ** Registration of handlers and hooks *)

Module Registration.

(** [self.error(coro)]: the command afterwards; [is_coroutine] is what
    [asyncio.iscoroutinefunction(coro)] answers. *)
Definition error (self : ApplicationCommand) (is_coroutine : bool)
    (coro : error_fn) : result ApplicationCommand :=
  if negb is_coroutine then
    Raise (TypeError "The error handler must be a coroutine.")
  else
    Ok {| name := name self; cog := cog self; checks := checks self;
          on_error := Some coro;
          _before_invoke := _before_invoke self;
          _after_invoke := _after_invoke self |}.

(** [hasattr(self, 'on_error')] *)
Definition has_error_handler (self : ApplicationCommand) : bool :=
  match on_error self with Some _ => true | None => false end.

Definition before_invoke (self : ApplicationCommand) (is_coroutine : bool)
    (coro : Hook) : result ApplicationCommand :=
  if negb is_coroutine then
    Raise (TypeError "The pre-invoke hook must be a coroutine.")
  else
    Ok {| name := name self; cog := cog self; checks := checks self;
          on_error := on_error self;
          _before_invoke := Some coro;
          _after_invoke := _after_invoke self |}.

Definition after_invoke (self : ApplicationCommand) (is_coroutine : bool)
    (coro : Hook) : result ApplicationCommand :=
  if negb is_coroutine then
    Raise (TypeError "The post-invoke hook must be a coroutine.")
  else
    Ok {| name := name self; cog := cog self; checks := checks self;
          on_error := on_error self;
          _before_invoke := _before_invoke self;
          _after_invoke := Some coro |}.

End Registration.

(** * Objects used in the examples *)

(** A bot whose global check passes and that has no global hooks. *)
Definition quiet_bot : Bot :=
  {| bot_can_run := fun _ => Ok true;
     bot_before_invoke := None;
     bot_after_invoke := None |}.

(** The world before an interaction whose payload has the given
    options. *)
Definition start (payload : option (list Arg)) : World :=
  {| ctx := {| ctx_command := None; command_failed := false;
               data_options := payload |};
     trace := [] |}.

(** A command with no cog, no checks, no hooks and no error handler. *)
Definition plain_command (n : string) : ApplicationCommand :=
  {| name := n; cog := None; checks := []; on_error := None;
     _before_invoke := None; _after_invoke := None |}.

(** A command whose local error handler raises [ValueError]. *)
Definition guarded_command : ApplicationCommand :=
  {| name := "ping"; cog := None; checks := [];
     on_error := Some (fun _ _ => Raise ValueError);
     _before_invoke := None; _after_invoke := None |}.

(** A command in a cog whose error hook raises, with no local handler. *)
Definition cog_command : ApplicationCommand :=
  {| name := "ping";
     cog := Some {| cog_command_error := Some (fun _ _ => Raise ValueError);
                    cog_before_invoke := None;
                    cog_after_invoke := None |};
     checks := []; on_error := None;
     _before_invoke := None; _after_invoke := None |}.

(** Whether the local error handler, if any, lets [dispatch_error] go on:
    it is absent, returns, or is cancelled. *)
Definition handler_passes (self : ApplicationCommand) (error : exn) (c : Context) : bool :=
  match on_error self with
  | None => true
  | Some coro => is_ok (protect (run_handler coro error c))
  end.

(** The parameters of
    [f(ctx, a: int, b: str = "x", c: Optional[int] = None)]. *)
Definition example_params : list Slash.Param :=
  [ {| Slash.p_name := "ctx"; Slash.p_annotation := Slash.AnnEmpty;
       Slash.p_default := VEmpty |};
    {| Slash.p_name := "a"; Slash.p_annotation := Slash.AnnType Options.DtInt;
       Slash.p_default := VEmpty |};
    {| Slash.p_name := "b"; Slash.p_annotation := Slash.AnnType Options.DtStr;
       Slash.p_default := VStr "x" |};
    {| Slash.p_name := "c";
       Slash.p_annotation := Slash.AnnUnion [Options.DtInt; Options.DtNoneType];
       Slash.p_default := VNone |} ].

(** The default an option ends with when it had none of its own. *)
Definition declared_default (d : pyval) : pyval :=
  if is_empty d then VNone else d.

(** [int] on a string of decimal digits; the environment of the
    examples knows no other spelling. *)
Fixpoint decimal_loop (s : string) (acc : Z) : result Z :=
  match s with
  | EmptyString => Ok acc
  | String c s' =>
      let n := nat_of_ascii c in
      if (48 <=? n) && (n <=? 57)
      then decimal_loop s' (10 * acc + Z.of_nat (n - 48))%Z
      else Raise ValueError
  end.

Definition decimal (s : string) : result Z :=
  match s with
  | EmptyString => Raise ValueError
  | _ => decimal_loop s 0%Z
  end.

(** A guild with a single role, 7, and no members. *)
Definition example_env : Slash.Env :=
  {| Slash.get_or_fetch := fun attr id =>
       if String.eqb attr "role" && (id =? 7)%Z
       then Ok (VEntity "role" 7)
       else Raise NotFound;
     Slash.int_of_str := decimal |}.

Definition who_option : Options.Option :=
  Options.Option_init (Options.TaEnum Options.mentionable)
    (Some "Who to greet") (Some "who") None [] None.

Definition mention_command : Slash.SlashCommand :=
  {| Slash.base := plain_command "greet";
     Slash.description := "Greets a member or a role";
     Slash.guild_ids := None;
     Slash.options := [who_option];
     Slash.is_subcommand := false;
     Slash.callback := fun _ _ => Ok VNone |}.

Definition who (id : string) : Arg :=
  {| arg_name := "who"; arg_value := Some (VStr id) |}.

(** A top-level group and a group nested in it. *)
Definition top_group : Group.SubCommandGroup :=
  {| Group.as_option :=
       Options.Option_init (Options.TaEnum Options.sub_command_group)
         (Some "Administration") (Some "admin") None [] None;
     Group.subcommands := [Group.ChildGroup 1];
     Group.guild_ids := None;
     Group.parent_group := None;
     Group.g_checks := [];
     Group.g_before_invoke := None;
     Group.g_after_invoke := None;
     Group.g_cog := None |}.

Definition nested_group : Group.SubCommandGroup :=
  {| Group.as_option :=
       Options.Option_init (Options.TaEnum Options.sub_command_group)
         (Some "User administration") (Some "users") None [] None;
     Group.subcommands := [];
     Group.guild_ids := None;
     Group.parent_group := Some 0;
     Group.g_checks := [];
     Group.g_before_invoke := None;
     Group.g_after_invoke := None;
     Group.g_cog := None |}.

Definition example_heap : list Group.SubCommandGroup :=
  [top_group; nested_group].

(** A message command built with a description, which is dropped. *)
Definition report_func : ContextMenu.Func :=
  {| ContextMenu.f_name := "report";
     ContextMenu.f_is_coroutine := true;
     ContextMenu.f_params := ["ctx"; "message"];
     ContextMenu.f_commands_checks := None;
     ContextMenu.f_call := fun _ _ => Ok VNone |}.

Definition report_kwargs : ContextMenu.Kwargs :=
  {| ContextMenu.kw_name := Some (VStr "Report Message");
     ContextMenu.kw_description := Some (VStr "Reports a message");
     ContextMenu.kw_guild_ids := None;
     ContextMenu.kw_checks := None |}.

Definition report_command : ContextMenu.ContextMenuCommand :=
  {| ContextMenu.cls := ContextMenu.MessageCommand;
     ContextMenu.base := plain_command "Report Message";
     ContextMenu.description := "";
     ContextMenu.guild_ids := None;
     ContextMenu.callback := fun _ _ => Ok VNone |}.

(** The context once [prepare] has bound the command to it. *)
Definition bound_to (self : ApplicationCommand) (c : Context) : Context :=
  {| ctx_command := Some (name self);
     command_failed := command_failed c;
     data_options := data_options c |}.

(** The world after some more calls. *)
Definition extend (w : World) (evs : list Event) : World :=
  {| ctx := ctx w; trace := (trace w ++ evs)%list |}.

(** A bot whose global check rejects every invocation. *)
Definition strict_bot : Bot :=
  {| bot_can_run := fun _ => Ok false;
     bot_before_invoke := None;
     bot_after_invoke := None |}.

(** A bot, a cog and a command with every hook set; each hook returns. *)
Definition hooked_bot : Bot :=
  {| bot_can_run := fun _ => Ok true;
     bot_before_invoke := Some (fun _ => Ok tt);
     bot_after_invoke := Some (fun _ => Ok tt) |}.

Definition hooked_cog : Cog :=
  {| cog_command_error := None;
     cog_before_invoke := Some (fun _ => Ok tt);
     cog_after_invoke := Some (fun _ => Ok tt) |}.

Definition quiet_hook : Hook := {| h_self := false; h_run := fun _ => Ok tt |}.

Definition hooked_command : ApplicationCommand :=
  {| name := "ping"; cog := Some hooked_cog; checks := []; on_error := None;
     _before_invoke := Some quiet_hook; _after_invoke := Some quiet_hook |}.

(** A command whose own after-hook raises. *)
Definition failing_hook : Hook :=
  {| h_self := false; h_run := fun _ => Raise (Exception "cleanup failed") |}.

Definition untidy_command : ApplicationCommand :=
  {| name := "ping"; cog := None; checks := []; on_error := None;
     _before_invoke := None; _after_invoke := Some failing_hook |}.



(** A callback [greet(ctx, a: int, b: str = "x", c: Optional[int] = None)]
    with a docstring, and no keyword arguments. *)
Definition greet_func : SlashBuild.Func :=
  {| SlashBuild.f_name := "greet";
     SlashBuild.f_is_coroutine := true;
     SlashBuild.f_doc_line := Some (Ok "Greets someone");
     SlashBuild.f_params := example_params;
     SlashBuild.f_commands_checks := None;
     SlashBuild.f_call := fun _ _ => Ok VNone |}.

Definition no_kwargs : SlashBuild.Kwargs :=
  {| SlashBuild.kw_name := None;
     SlashBuild.kw_description := None;
     SlashBuild.kw_guild_ids := None;
     SlashBuild.kw_checks := None |}.

(** The command that [greet_func] builds. *)
Definition greet_command : Slash.SlashCommand :=
  {| Slash.base := plain_command "greet";
     Slash.description := "Greets someone";
     Slash.guild_ids := None;
     Slash.options := map Slash.parse_option (tail example_params);
     Slash.is_subcommand := false;
     Slash.callback := fun _ _ => Ok VNone |}.

(** * Properties *)

Open Scope list_scope.

(** ** Validation of names *)

Section ValidationFacts.
Import Validation.

Lemma islower_loop_spec (s : string) (cased : bool) :
  islower_loop s cased = negb (has_upper s) && (cased || has_lower s).
Proof.
  revert cased. induction s as [| c s IH]; intros cased.
  - unfold has_upper, has_lower. simpl. by rewrite orb_false_r.
  - unfold has_upper, has_lower in *. simpl.
    destruct (char_isupper c); simpl; [done |].
    rewrite IH. by rewrite orb_assoc.
Qed.

Lemma islower_spec (s : string) :
  islower s = true ↔ has_upper s = false ∧ has_lower s = true.
Proof.
  unfold islower. rewrite islower_loop_spec. simpl.
  rewrite andb_true_iff, negb_true_iff. tauto.
Qed.

Lemma has_lower_nonempty (s : string) : has_lower s = true → 1 ≤ len s.
Proof. destruct s; unfold has_lower, len; simpl; [done | lia]. Qed.

(** Without a string the validation raises [TypeError]. *)
Lemma validate_name_not_str (v : pyval) :
  (∀ s, v ≠ VStr s) →
  validate_chat_input_name v = Raise (TypeError "Name of a command must be a string.").
Proof. intros H. destruct v; try done. by destruct (H s). Qed.

End ValidationFacts.




(** ** The option builder *)

Section OptionBuilder.
Import Options Slash.

Lemma py_or_none (d : pyval) : py_or VNone d = d.
Proof. reflexivity. Qed.

Lemma parse_option_plain (n : string) (t : datatype) (d : pyval) :
  parse_option {| p_name := n; p_annotation := AnnType t; p_default := d |}
  = {| o_name := Some n; o_description := "No description provided";
       o_input_type := from_datatype t; o_required := is_empty d;
       o_choices := []; o_default := declared_default d |}.
Proof. unfold parse_option, declared_default. simpl. by destruct d. Qed.

Lemma parse_option_unannotated (n : string) (d : pyval) :
  parse_option {| p_name := n; p_annotation := AnnEmpty; p_default := d |}
  = parse_option {| p_name := n; p_annotation := AnnType DtStr; p_default := d |}.
Proof. reflexivity. Qed.

Lemma parse_option_optional (n : string) (t : datatype) (d : pyval) :
  parse_option {| p_name := n; p_annotation := AnnUnion [t; DtNoneType];
                  p_default := d |}
  = {| o_name := Some n; o_description := "No description provided";
       o_input_type := from_datatype t; o_required := false;
       o_choices := []; o_default := declared_default d |}.
Proof.
  unfold parse_option, declared_default, _is_typing_optional. simpl.
  rewrite bool_decide_eq_true_2 by set_solver.
  simpl. by destruct d.
Qed.

(** The name of an explicit [Option] is kept when it is set and filled
    from the parameter when it is not. *)
Lemma parse_option_name (n : string) (o : Option) (d : pyval) :
  o_name (parse_option {| p_name := n; p_annotation := AnnOption o;
                          p_default := d |})
  = Some (default n (o_name o)).
Proof.
  destruct o as [on od ot orq oc odf]. unfold parse_option. simpl.
  destruct (is_empty (py_or odf d)); simpl; by destruct on.
Qed.

(** A default of an explicit [Option] that is true (and is not the
    sentinel) is kept. *)
Lemma parse_option_truthy_default (n : string) (o : Option) (d : pyval) :
  truthy (o_default o) = true → is_empty (o_default o) = false →
  o_default (parse_option {| p_name := n; p_annotation := AnnOption o;
                             p_default := d |})
  = o_default o.
Proof.
  destruct o as [on od ot orq oc odf]. simpl. intros Ht He.
  unfold parse_option, py_or. simpl. rewrite Ht. simpl.
  rewrite He. by destruct on.
Qed.

(** What the builder computes for the default of an explicit [Option]. *)
Lemma parse_option_default (n : string) (o : Option) (d : pyval) :
  o_default (parse_option {| p_name := n; p_annotation := AnnOption o;
                             p_default := d |})
  = declared_default (py_or (o_default o) d).
Proof.
  destruct o as [on od ot orq oc odf].
  unfold parse_option, declared_default. simpl.
  destruct (is_empty (py_or odf d)) eqn:He; simpl;
    destruct on; simpl; done.
Qed.

End OptionBuilder.

(** C3: for [f(ctx, a: int, b: str = "x", c: Optional[int] = None)] the
    builder returns the three options a (integer, required), b (string,
    not required, default "x") and c (integer, not required, default
    None), in that order; in general the options are the parameters after
    the context parameter, in declaration order, a plain or missing
    annotation is wrapped into an option that is required exactly when the
    parameter has no default, and [Optional[T]] gives an option of the type
    of [T] that is not required. *)
Theorem parse_options_example :
  Slash.parse_options (@None Cog) "f" example_params
  = Ok [ {| Options.o_name := Some "a";
            Options.o_description := "No description provided";
            Options.o_input_type := Options.integer;
            Options.o_required := true;
            Options.o_choices := [];
            Options.o_default := VNone |};
         {| Options.o_name := Some "b";
            Options.o_description := "No description provided";
            Options.o_input_type := Options.string_type;
            Options.o_required := false;
            Options.o_choices := [];
            Options.o_default := VStr "x" |};
         {| Options.o_name := Some "c";
            Options.o_description := "No description provided";
            Options.o_input_type := Options.integer;
            Options.o_required := false;
            Options.o_choices := [];
            Options.o_default := VNone |} ]
  ∧ (∀ (command : string) (ctx_param : Slash.Param) (ps : list Slash.Param),
       Slash.parse_options (@None Cog) command (ctx_param :: ps)
       = Ok (map Slash.parse_option ps))
  ∧ (∀ (n : string) (t : Options.datatype) (d : pyval),
       Slash.parse_option
         {| Slash.p_name := n; Slash.p_annotation := Slash.AnnType t;
            Slash.p_default := d |}
       = {| Options.o_name := Some n;
            Options.o_description := "No description provided";
            Options.o_input_type := Options.from_datatype t;
            Options.o_required := is_empty d;
            Options.o_choices := [];
            Options.o_default := declared_default d |})
  ∧ (∀ (n : string) (d : pyval),
       Slash.parse_option
         {| Slash.p_name := n; Slash.p_annotation := Slash.AnnEmpty;
            Slash.p_default := d |}
       = {| Options.o_name := Some n;
            Options.o_description := "No description provided";
            Options.o_input_type := Options.string_type;
            Options.o_required := is_empty d;
            Options.o_choices := [];
            Options.o_default := declared_default d |})
  ∧ (∀ (n : string) (t : Options.datatype) (d : pyval),
       Slash.parse_option
         {| Slash.p_name := n;
            Slash.p_annotation := Slash.AnnUnion [t; Options.DtNoneType];
            Slash.p_default := d |}
       = {| Options.o_name := Some n;
            Options.o_description := "No description provided";
            Options.o_input_type := Options.from_datatype t;
            Options.o_required := false;
            Options.o_choices := [];
            Options.o_default := declared_default d |}).
Proof.
  split; [reflexivity |].
  split; [reflexivity |].
  split; [apply parse_option_plain |].
  split; [| apply parse_option_optional].
  intros n d. rewrite parse_option_unannotated. apply parse_option_plain.
Qed.

(** C4 fails on the code: the builder computes
    [option.default or p_obj.default], so a default of an explicit
    [Option] that is set to a false value is not kept.  With
    [n: Option(int, "count", default=0) = 5] the final default is 5, and
    with no declared default it is [None]; the same happens to [False] and
    to the empty string.  The name, in contrast, is filled only when it is
    unset. *)
Theorem parse_option_falsy_default_lost :
  let opt (d : pyval) :=
    Options.Option_init (Options.TaData Options.DtInt) (Some "count")
      None None [] (Some d) in
  let built (own declared : pyval) :=
    Options.o_default
      (Slash.parse_option
         {| Slash.p_name := "n"; Slash.p_annotation := Slash.AnnOption (opt own);
            Slash.p_default := declared |}) in
  Options.o_default (opt (VInt 0)) = VInt 0
  ∧ built (VInt 0) (VInt 5) = VInt 5
  ∧ built (VInt 0) VEmpty = VNone
  ∧ built (VBool false) (VBool true) = VBool true
  ∧ built (VStr "") (VStr "x") = VStr "x".
Proof. repeat split; reflexivity. Qed.

(** ** Equality of slash commands *)

(** C10: [a == b] on slash commands holds exactly when the names and the
    descriptions are equal; an object that is not a slash command is never
    equal to one; the callback, the options, the guild ids, the checks and
    the other attributes play no part. *)
Theorem slash_eq_spec :
  (∀ a b : Slash.SlashCommand,
     Slash.eq a (Slash.ObjSlash b) = true
     ↔ name (Slash.base b) = name (Slash.base a)
       ∧ Slash.description b = Slash.description a)
  ∧ (∀ (a : Slash.SlashCommand) (o : Options.Option),
       Slash.eq a (Slash.ObjOption o) = false)
  ∧ (∀ (a : Slash.SlashCommand) (v : pyval),
       Slash.eq a (Slash.ObjVal v) = false)
  ∧ (∀ (n d : string) cog1 cog2 checks1 checks2 err1 err2 bi1 bi2 ai1 ai2
        g1 g2 opts1 opts2 sub1 sub2 cb1 cb2,
       Slash.eq
         {| Slash.base := {| name := n; cog := cog1; checks := checks1;
                             on_error := err1; _before_invoke := bi1;
                             _after_invoke := ai1 |};
            Slash.description := d; Slash.guild_ids := g1;
            Slash.options := opts1; Slash.is_subcommand := sub1;
            Slash.callback := cb1 |}
         (Slash.ObjSlash
            {| Slash.base := {| name := n; cog := cog2; checks := checks2;
                                on_error := err2; _before_invoke := bi2;
                                _after_invoke := ai2 |};
               Slash.description := d; Slash.guild_ids := g2;
               Slash.options := opts2; Slash.is_subcommand := sub2;
               Slash.callback := cb2 |})
       = true).
Proof.
  split; [| split; [reflexivity | split; [reflexivity |]]].
  - intros a b. unfold Slash.eq.
    rewrite andb_true_iff, !String.eqb_eq. tauto.
  - intros. unfold Slash.eq. simpl. by rewrite !String.eqb_refl.
Qed.

(** ** Context-menu commands *)

Lemma context_menu_init_inv (k : ContextMenu.kind) (func : ContextMenu.Func)
    (kwargs : ContextMenu.Kwargs) (c : ContextMenu.ContextMenuCommand) :
  ContextMenu.init k func kwargs = Ok c →
  ContextMenu.cls c = k ∧ ContextMenu.description c = ""
  ∧ VStr (name (ContextMenu.base c))
    = default (VStr (ContextMenu.f_name func)) (ContextMenu.kw_name kwargs).
Proof.
  unfold ContextMenu.init.
  destruct (negb (ContextMenu.f_is_coroutine func)); [done |].
  destruct (ContextMenu.kw_name kwargs) as [v |]; simpl.
  - destruct v; try done.
    destruct (ContextMenu.validate_parameters _ _ _ _); [| done].
    intros [= <-]. done.
  - destruct (ContextMenu.validate_parameters _ _ _ _); [| done].
    intros [= <-]. done.
Qed.

(** C9: a context-menu command that was constructed has the empty
    description, whatever description was passed, and its wire dictionary
    is exactly name, description "" and type, the type being 2 for a user
    command and 3 for a message command. *)
Theorem context_menu_wire (k : ContextMenu.kind) (func : ContextMenu.Func)
    (kwargs : ContextMenu.Kwargs) (c : ContextMenu.ContextMenuCommand) :
  ContextMenu.init k func kwargs = Ok c →
  ContextMenu.description c = ""
  ∧ ContextMenu.to_dict c
    = {[ "name" := JStr (name (ContextMenu.base c));
         "description" := JStr "";
         "type" := JInt (match k with
                         | ContextMenu.UserCommand => 2
                         | ContextMenu.MessageCommand => 3
                         end) ]}
  ∧ dom (ContextMenu.to_dict c) = {[ "name"; "description"; "type" ]}.
Proof.
  intros Hinit. destruct (context_menu_init_inv _ _ _ _ Hinit) as (Hk & Hd & _).
  split; [done |].
  assert (ContextMenu.to_dict c
          = {[ "name" := JStr (name (ContextMenu.base c));
               "description" := JStr "";
               "type" := JInt (match k with
                               | ContextMenu.UserCommand => 2
                               | ContextMenu.MessageCommand => 3
                               end) ]}) as Heq.
  { unfold ContextMenu.to_dict. rewrite Hd, Hk.
    rewrite insert_empty. by destruct k. }
  split; [done |].
  rewrite Heq. rewrite !dom_insert_L, dom_singleton_L. set_solver.
Qed.

(** ** Nesting of sub-command groups *)

Section GroupFacts.
Import Group.

Lemma init_parent (n d : pyval) (gi : option (list Z)) (p : option nat)
    (g : SubCommandGroup) :
  init n d gi p = Ok g → parent_group g = p ∧ subcommands g = [].
Proof.
  unfold init.
  destruct (Validation.validate_chat_input_name n); [| done].
  destruct (Validation.validate_chat_input_description d); [| done].
  destruct n; try done. destruct d; try done.
  by intros [= <-].
Qed.

Lemma append_child_parent (c : child) (g : SubCommandGroup) :
  parent_group (append_child c g) = parent_group g.
Proof. reflexivity. Qed.

(** Reading the heap after a child group was attached to [self]. *)
Lemma lookup_attached (h : Heap) (self j : nat) (g' sub : SubCommandGroup) :
  self < length h →
  (<[self := g']> h ++ [sub])%list !! j
  = if decide (j = self) then Some g'
    else if decide (j = length h) then Some sub
    else h !! j.
Proof.
  intros Hself.
  destruct (decide (j = self)) as [-> | Hne].
  - rewrite lookup_app_l by (rewrite length_insert; lia).
    by rewrite list_lookup_insert_eq.
  - destruct (decide (j = length h)) as [-> | Hnl].
    + rewrite lookup_app_r by (rewrite length_insert; lia).
      rewrite length_insert. by rewrite Nat.sub_diag.
    + destruct (decide (j < length h)) as [Hlt | Hge].
      * rewrite lookup_app_l by (rewrite length_insert; lia).
        by rewrite list_lookup_insert_ne.
      * rewrite lookup_ge_None_2 by (rewrite length_app, length_insert; simpl; lia).
        symmetry. apply lookup_ge_None_2. lia.
Qed.

(** [command_group] keeps the nesting at most two levels deep. *)
Lemma command_group_depth (h h' : Heap) (self : nat) (n d : pyval)
    (out : result nat) :
  depth_ok h → command_group h self n d = Some (out, h') → depth_ok h'.
Proof.
  intros Hok. unfold command_group.
  destruct (h !! self) as [g |] eqn:Hg; [| done].
  destruct (parent_group g) as [p |] eqn:Hp; [by intros [= _ <-] |].
  destruct (init n d None (Some self)) as [sub | e] eqn:Hinit;
    [| by intros [= _ <-]].
  intros [= _ <-].
  apply init_parent in Hinit as [Hsubp _].
  assert (self < length h) as Hself by (by eapply lookup_lt_Some).
  intros i g0 p0 Hi Hp0.
  assert (∀ j gj, h !! j = Some gj → parent_group gj = None →
            ∃ gp, (<[self := append_child (ChildGroup (length h)) g]> h ++ [sub])%list !! j
                  = Some gp ∧ parent_group gp = None) as Hkeep.
  { intros j gj Hj Hpj. rewrite lookup_attached by done.
    destruct (decide (j = self)) as [-> | ?]; [by eexists |].
    destruct (decide (j = length h)) as [-> | ?].
    - apply lookup_lt_Some in Hj. lia.
    - by eexists. }
  rewrite lookup_attached in Hi by done.
  destruct (decide (i = self)) as [-> | ?].
  { injection Hi as <-. rewrite append_child_parent in Hp0. congruence. }
  destruct (decide (i = length h)) as [-> | ?].
  - injection Hi as <-. rewrite Hsubp in Hp0. injection Hp0 as <-.
    by eapply Hkeep.
  - destruct (Hok i g0 p0 Hi Hp0) as (gp & Hgp & Hgpp).
    by eapply Hkeep.
Qed.

End GroupFacts.

(** C8: on a group whose [parent_group] is set, [command_group] raises
    and leaves the heap as it was: no group object is added and nothing is
    appended to [subcommands]; and in a heap where every parent is a group
    without a parent, every call of [command_group] keeps it so. *)
Theorem command_group_nested_raises (h : Group.Heap) (self p : nat)
    (g : Group.SubCommandGroup) (name description : pyval) :
  h !! self = Some g →
  Group.parent_group g = Some p →
  Group.command_group h self name description
  = Some (Raise (Exception "Subcommands can only be nested once"), h)
  ∧ (Group.depth_ok h →
     ∀ (target : nat) (n d : pyval) (out : result nat) (h' : Group.Heap),
       Group.command_group h target n d = Some (out, h') → Group.depth_ok h').
Proof.
  intros Hg Hp. split.
  - unfold Group.command_group. by rewrite Hg, Hp.
  - intros Hok target n d out h' Hcall. by eapply command_group_depth.
Qed.

(** ** The invocation pipeline *)

Section Pipeline.

Lemma call_trace {A} (ev : Event) (f : Context → result A) (w : World) :
  call ev f w = (f (ctx w), {| ctx := ctx w; trace := trace w ++ [ev] |}).
Proof. reflexivity. Qed.

(** A run of [call_after_hooks] leaves the context alone and extends the
    trace by its entry mark followed by calls of after-hooks. *)
Lemma call_after_hooks_trace (bot : Bot) (self : ApplicationCommand) (w : World) :
  ∃ evs,
    (call_after_hooks bot self w).2
    = {| ctx := ctx w; trace := trace w ++ EvCallAfterHooks :: evs |}
    ∧ List.filter is_after_hooks_entry evs = [].
Proof.
  unfold call_after_hooks, bind, log, call_opt, call, ret. simpl.
  destruct (_after_invoke self) as [h |]; simpl.
  - destruct (h_run h (ctx w)); simpl.
    + destruct (cog self) as [c |]; simpl.
      * destruct (cog_after_invoke c) as [f |]; simpl.
        -- destruct (f (ctx w)); simpl.
           ++ destruct (bot_after_invoke bot); simpl;
                rewrite <- ?app_assoc; simpl; eexists; split; done.
           ++ rewrite <- ?app_assoc; simpl; eexists; split; done.
        -- destruct (bot_after_invoke bot); simpl;
             rewrite <- ?app_assoc; simpl; eexists; split; done.
      * destruct (bot_after_invoke bot); simpl;
          rewrite <- ?app_assoc; simpl; eexists; split; done.
    + rewrite <- ?app_assoc; simpl; eexists; split; done.
  - destruct (cog self) as [c |]; simpl.
    + destruct (cog_after_invoke c) as [f |]; simpl.
      * destruct (f (ctx w)); simpl.
        -- destruct (bot_after_invoke bot); simpl;
             rewrite <- ?app_assoc; simpl; eexists; split; done.
        -- rewrite <- ?app_assoc; simpl; eexists; split; done.
      * destruct (bot_after_invoke bot); simpl;
          rewrite <- ?app_assoc; simpl; eexists; split; done.
    + destruct (bot_after_invoke bot); simpl;
        rewrite <- ?app_assoc; simpl; eexists; split; done.
Qed.

Lemma call_after_hooks_runs (bot : Bot) (self : ApplicationCommand) (w : World) :
  after_hooks_runs (call_after_hooks bot self w).2 = S (after_hooks_runs w).
Proof.
  destruct (call_after_hooks_trace bot self w) as (evs & -> & Hevs).
  unfold after_hooks_runs. simpl.
  rewrite List.filter_app. simpl. rewrite Hevs.
  rewrite length_app. simpl. lia.
Qed.

(** The wrapper runs the coroutine, then the cleanup, and answers with
    the protected outcome unless the cleanup raises. *)
Lemma hooked_wrapped_callback_run (bot : Bot) (self : ApplicationCommand)
    (coro : M pyval) (w w' : World) (r : result pyval) :
  coro w = (r, w') →
  hooked_wrapped_callback bot self coro w
  = match call_after_hooks bot self w' with
    | (Ok _, w'') => (protect r, w'')
    | (Raise e, w'') => (Raise e, w'')
    end.
Proof.
  intros H. unfold hooked_wrapped_callback, try_finally, wrap_callback.
  by rewrite H.
Qed.

Lemma invoke_run (bot : Bot) (self : ApplicationCommand) (_invoke : M pyval)
    (w w1 w2 : World) (r : result pyval) :
  prepare bot self w = (Ok tt, w1) →
  _invoke w1 = (r, w2) →
  invoke bot self _invoke w
  = match call_after_hooks bot self w2 with
    | (Ok _, w3) =>
        match protect r with
        | Ok _ => (Ok VNone, w3)
        | Raise e => (Raise e, w3)
        end
    | (Raise e, w3) => (Raise e, w3)
    end.
Proof.
  intros Hp Hi. unfold invoke, bind. rewrite Hp.
  rewrite (hooked_wrapped_callback_run _ _ _ _ _ _ Hi).
  destruct (call_after_hooks bot self w2) as [[[] | e] w3]; [| done].
  by destruct (protect r).
Qed.

End Pipeline.

(** C7, as stated, fails: the cleanup runs in a [finally] clause, so an
    after-hook that raises makes [invoke] raise although [_invoke] raised
    a cancellation.  With a command whose own after-hook raises and a step
    that is cancelled, [prepare] passes, the cleanup is entered once, and
    [invoke] raises the exception of the hook. *)
Lemma invoke_cancellation_cleanup_raises :
  prepare quiet_bot untidy_command (start None)
  = (Ok tt,
     {| ctx := {| ctx_command := Some "ping"; command_failed := false;
                  data_options := None |};
        trace := [EvBotCanRun] |})
  ∧ (∀ w1 : World, raise (A := pyval) CancelledError w1 = (Raise CancelledError, w1))
  ∧ invoke quiet_bot untidy_command (raise CancelledError) (start None)
    = (Raise (Exception "cleanup failed"),
       {| ctx := {| ctx_command := Some "ping"; command_failed := false;
                    data_options := None |};
          trace := [EvBotCanRun; EvCallAfterHooks; EvAfterInvoke false] |}).
Proof. repeat split; reflexivity. Qed.

(** C7, amended: once [prepare] has passed, whatever [_invoke] does
    (returns, is cancelled, raises anything else), [invoke] enters the
    after-hook cleanup exactly once, after [_invoke]; and when [_invoke]
    raises a cancellation, the cancellation is never surfaced: the outcome
    of [invoke] is that of the cleanup, a return of [None] without raising
    when the after-hooks complete, the exception of the after-hook when
    one of them raises. *)
Theorem invoke_cancellation (bot : Bot) (self : ApplicationCommand)
    (_invoke : M pyval) (w w1 w2 : World) (r : result pyval) :
  prepare bot self w = (Ok tt, w1) →
  _invoke w1 = (r, w2) →
  (invoke bot self _invoke w).2 = (call_after_hooks bot self w2).2
  ∧ after_hooks_runs (invoke bot self _invoke w).2 = S (after_hooks_runs w2)
  ∧ (∃ evs, trace (invoke bot self _invoke w).2
            = trace w2 ++ EvCallAfterHooks :: evs
            ∧ List.filter is_after_hooks_entry evs = [])
  ∧ (r = Raise CancelledError →
     invoke bot self _invoke w
     = match call_after_hooks bot self w2 with
       | (Ok _, w3) => (Ok VNone, w3)
       | (Raise e, w3) => (Raise e, w3)
       end)
  ∧ (r = Raise CancelledError →
     ∀ w3, call_after_hooks bot self w2 = (Ok tt, w3) →
           invoke bot self _invoke w = (Ok VNone, w3)).
Proof.
  intros Hp Hi.
  assert ((invoke bot self _invoke w).2 = (call_after_hooks bot self w2).2) as Hw.
  { rewrite (invoke_run _ _ _ _ _ _ _ Hp Hi).
    destruct (call_after_hooks bot self w2) as [[[] | e] w3]; [| done].
    by destruct (protect r). }
  split; [done |]. rewrite Hw.
  split; [apply call_after_hooks_runs |].
  split.
  { destruct (call_after_hooks_trace bot self w2) as (evs & -> & Hevs).
    by exists evs. }
  split.
  - intros ->. rewrite (invoke_run _ _ _ _ _ _ _ Hp Hi). simpl.
    by destruct (call_after_hooks bot self w2) as [[[] | e] w3].
  - intros -> w3 Hc. rewrite (invoke_run _ _ _ _ _ _ _ Hp Hi), Hc. done.
Qed.

(** ** Argument resolution of slash commands *)

Section Resolution.
Import Options Slash.

Variable env : Env.
Variable opts : list Option.

Lemma find_option_cons (n : string) (o : Option) (rest : list Option) :
  find_option n (o :: rest)
  = if bool_decide (o_name o = Some n) then Some o else find_option n rest.
Proof. reflexivity. Qed.

(** The option that [find] returns carries the name that was looked up. *)
Lemma find_option_name (n : string) (os : list Option) (o : Option) :
  find_option n os = Some o → o_name o = Some n.
Proof.
  induction os as [| o' os IH]; [done |].
  rewrite find_option_cons. case_bool_decide as Hn; [| done].
  by intros [= <-].
Qed.

(** The second loop keeps every key that is present and gives every other
    name the default of the first option that carries it. *)
Lemma fill_defaults_lookup (os : list Option) (kw : gmap string pyval) (n : string) :
  fill_defaults os kw !! n
  = match kw !! n with
    | Some v => Some v
    | None => o_default <$> find_option n os
    end.
Proof.
  revert kw. induction os as [| o os IH]; intros kw; cbn [fill_defaults].
  { by destruct (kw !! n). }
  rewrite find_option_cons.
  destruct (o_name o) as [m |] eqn:Hm.
  - destruct (kw !! m) as [v |] eqn:Hkm.
    + rewrite IH. case_bool_decide as Hn; [| done].
      injection Hn as ->. by rewrite Hkm.
    + rewrite IH. case_bool_decide as Hn.
      * injection Hn as ->. by rewrite lookup_insert_eq, Hkm.
      * rewrite lookup_insert_ne by congruence. done.
  - rewrite IH. by rewrite bool_decide_eq_false_2.
Qed.

Lemma resolve_all_app (pre post : list Arg) (kw : gmap string pyval) (w : World) :
  resolve_all env opts (pre ++ post) kw w
  = match resolve_all env opts pre kw w with
    | (Ok kw1, w1) => resolve_all env opts post kw1 w1
    | (Raise e, w1) => (Raise e, w1)
    end.
Proof.
  revert kw w. induction pre as [| a pre IH]; intros kw w; simpl; [done |].
  unfold bind. destruct (resolve env opts a w) as [[v | e] w']; [| done].
  apply IH.
Qed.

(** The first loop only writes the keys named in the payload. *)
Lemma resolve_all_keeps (args : list Arg) (kw kw' : gmap string pyval)
    (w w' : World) (n : string) :
  resolve_all env opts args kw w = (Ok kw', w') →
  n ∉ map arg_name args →
  kw' !! n = kw !! n.
Proof.
  revert kw w. induction args as [| a args IH]; intros kw w; simpl.
  { by intros [= <- _]. }
  unfold bind. destruct (resolve env opts a w) as [[v | e] w1]; [| done].
  intros Hrest Hn. apply not_elem_of_cons in Hn as [Hna Hn].
  rewrite (IH _ _ Hrest Hn). by rewrite lookup_insert_ne.
Qed.


(** [_invoke] once the first loop has completed. *)
Lemma _invoke_run (self : SlashCommand) (w w' : World) (kw : gmap string pyval) :
  options self = opts →
  resolve_all env opts (default [] (data_options (ctx w))) ∅ w = (Ok kw, w') →
  existsb unnamed opts = false →
  _invoke env self w
  = (match callback self (ctx w') (fill_defaults opts kw) with
     | Ok _ => Ok VNone
     | Raise e => Raise e
     end,
     {| ctx := ctx w';
        trace := trace w' ++ [EvCallback (fill_defaults opts kw)] |}).
Proof.
  intros Ho Hr Hn. unfold _invoke, bind, get_ctx. rewrite Ho.
  replace (match data_options (ctx w) with Some l => l | None => [] end)
    with (default [] (data_options (ctx w))) by by destruct (data_options (ctx w)).
  rewrite Hr, Hn. unfold call, ret.
  by destruct (callback self (ctx w') (fill_defaults opts kw)).
Qed.

Lemma _invoke_raises (self : SlashCommand) (w w' : World) (e : exn) :
  options self = opts →
  resolve_all env opts (default [] (data_options (ctx w))) ∅ w = (Raise e, w') →
  _invoke env self w = (Raise e, w').
Proof.
  intros Ho Hr. unfold _invoke, bind, get_ctx. rewrite Ho.
  replace (match data_options (ctx w) with Some l => l | None => [] end)
    with (default [] (data_options (ctx w))) by by destruct (data_options (ctx w)).
  by rewrite Hr.
Qed.

End Resolution.



(** C6: a command whose schema is one string option called "name",
    invoked with the pair name = "Ada", calls its callback with the
    keywords name = "Ada"; invoked with an empty or missing options
    payload it calls it with name = the option's default, which is [None]
    when the option was built without one; in general, after the supplied
    pairs, a name that is no key yet gets the default of the schema option
    of that name, and a key that is present is left alone. *)
Theorem invoke_kwargs :
  (∀ (env : Slash.Env) (b : ApplicationCommand) (descr : string)
      (g : option (list Z)) (sub : bool) cb
      (odescr : string) (req : bool) (ch : list Options.OptionChoice) (d : pyval)
      (c : option string) (failed : bool) (tr : list Event),
     let o := {| Options.o_name := Some "name";
                 Options.o_description := odescr;
                 Options.o_input_type := Options.string_type;
                 Options.o_required := req; Options.o_choices := ch;
                 Options.o_default := d |} in
     let self := {| Slash.base := b; Slash.description := descr;
                    Slash.guild_ids := g; Slash.options := [o];
                    Slash.is_subcommand := sub; Slash.callback := cb |} in
     let context (payload : option (list Arg)) :=
       {| ctx_command := c; command_failed := failed;
          data_options := payload |} in
     let called (payload : option (list Arg)) (kwargs : gmap string pyval) :=
       (match cb (context payload) kwargs with
        | Ok _ => Ok VNone
        | Raise e => Raise e
        end,
        {| ctx := context payload; trace := tr ++ [EvCallback kwargs] |}) in
     let ada := Some [ {| arg_name := "name"; arg_value := Some (VStr "Ada") |} ] in
     Slash._invoke env self {| ctx := context ada; trace := tr |}
     = called ada {[ "name" := VStr "Ada" ]}
     ∧ Slash._invoke env self {| ctx := context (Some []); trace := tr |}
       = called (Some []) {[ "name" := d ]}
     ∧ Slash._invoke env self {| ctx := context None; trace := tr |}
       = called None {[ "name" := d ]})
  ∧ (∀ (odescr : option string) (req : option bool)
       (ch : list Options.choice_arg),
       Options.o_default
         (Options.Option_init (Options.TaData Options.DtStr) odescr
            (Some "name") req ch None)
       = VNone)
  ∧ (∀ (opts : list Options.Option) (kwargs : gmap string pyval) (n : string),
       Slash.fill_defaults opts kwargs !! n
       = match kwargs !! n with
         | Some v => Some v
         | None => Options.o_default <$> Slash.find_option n opts
         end).
Proof.
  split; [| split; [reflexivity | apply fill_defaults_lookup]].
  intros. subst o self context called ada.
  unfold Slash._invoke, bind, get_ctx. simpl.
  unfold Slash.resolve, Slash.find_option, bind, ret, call. simpl.
  rewrite lookup_insert_eq, !lookup_empty, !insert_empty.
  repeat split; by destruct (cb _ _).
Qed.

(** ** Error dispatch *)

Section ErrorDispatch.

Variable bot : Bot.
Variable self : ApplicationCommand.
Variable error : exn.

(** When the local handler is absent, returns or is cancelled, the last
    call of [dispatch_error] is the framework-wide event, whatever the
    error hook of the cog does. *)
Lemma dispatch_error_dispatches (w : World) :
  handler_passes self error (mark_failed (ctx w)) = true →
  ∃ evs, trace (dispatch_error bot self error w).2
         = trace w ++ evs ++ [EvDispatch "application_command_error" true error].
Proof.
  unfold handler_passes, dispatch_error, bind, get_ctx, set_ctx, try_finally,
    wrap_callback, call, log, ret. simpl.
  destruct (on_error self) as [coro |]; simpl.
  - destruct (protect (run_handler coro error (mark_failed (ctx w)))) eqn:Hp;
      [| done]. intros _. simpl.
    destruct (cog self) as [cg |]; simpl.
    + destruct (cog_command_error cg) as [local |]; simpl.
      * exists [EvOnError true error; EvCogCommandError error].
        rewrite <- !app_assoc. simpl.
        by destruct (protect (run_handler local error (mark_failed (ctx w)))).
      * exists [EvOnError true error]. by rewrite <- !app_assoc.
    + exists [EvOnError false error]. by rewrite <- !app_assoc.
  - intros _. destruct (cog self) as [cg |]; simpl.
    + destruct (cog_command_error cg) as [local |]; simpl.
      * exists [EvCogCommandError error].
        rewrite <- !app_assoc. simpl.
        by destruct (protect (run_handler local error (mark_failed (ctx w)))).
      * by exists [].
    + by exists [].
Qed.

(** When the local handler raises anything but a cancellation,
    [dispatch_error] stops there: the exception leaves it and the event is
    not dispatched. *)
Lemma dispatch_error_skipped (w : World) :
  handler_passes self error (mark_failed (ctx w)) = false →
  is_ok (dispatch_error bot self error w).1 = false
  ∧ (dispatch_error bot self error w).2
    = {| ctx := mark_failed (ctx w);
         trace := trace w ++ [EvOnError (bool_decide (is_Some (cog self))) error] |}.
Proof.
  unfold handler_passes, dispatch_error, bind, get_ctx, set_ctx, try_finally,
    wrap_callback, call, log, ret. simpl.
  destruct (on_error self) as [coro |]; simpl; [| done].
  by destruct (protect (run_handler coro error (mark_failed (ctx w)))).
Qed.

End ErrorDispatch.

(** C1 fails on the code: the local handler runs outside the [try] whose
    [finally] dispatches the event.  With a command whose [on_error]
    raises [ValueError], [dispatch_error] raises
    [ApplicationCommandInvokeError] and the trace holds the call of the
    handler only, no dispatch of "application_command_error"; with a cog
    whose error hook raises the same, the event is dispatched before the
    exception leaves. *)
Theorem dispatch_error_local_handler_raises :
  dispatch_error quiet_bot guarded_command (Exception "boom") (start None)
  = (Raise (ApplicationCommandInvokeError ValueError),
     {| ctx := mark_failed (ctx (start None));
        trace := [EvOnError false (Exception "boom")] |})
  ∧ List.filter is_dispatch
      (trace (dispatch_error quiet_bot guarded_command (Exception "boom")
                (start None)).2) = []
  ∧ dispatch_error quiet_bot cog_command (Exception "boom") (start None)
    = (Raise (ApplicationCommandInvokeError ValueError),
       {| ctx := mark_failed (ctx (start None));
          trace := [EvCogCommandError (Exception "boom");
                    EvDispatch "application_command_error" true
                      (Exception "boom")] |}).
Proof. repeat split; reflexivity. Qed.

(** ** Instances *)


Lemma invoke_cancellation_witness :
  invoke quiet_bot (plain_command "ping") (raise CancelledError) (start None)
  = (Ok VNone,
     {| ctx := {| ctx_command := Some "ping"; command_failed := false;
                  data_options := None |};
        trace := [EvBotCanRun; EvCallAfterHooks] |})
  ∧ after_hooks_runs
      (invoke quiet_bot (plain_command "ping") (raise CancelledError)
         (start None)).2 = 1.
Proof.
  set (w := start None).
  set (w1 := (prepare quiet_bot (plain_command "ping") w).2).
  pose proof (invoke_cancellation quiet_bot (plain_command "ping")
                (raise CancelledError) w w1 w1 (Raise CancelledError)
                eq_refl eq_refl) as (_ & Hruns & _ & _ & Hcancel).
  split.
  - apply (Hcancel eq_refl). reflexivity.
  - rewrite Hruns. reflexivity.
Defined.

Lemma command_group_nested_raises_witness :
  Group.command_group example_heap 1 (VStr "roles") (VStr "Role administration")
  = Some (Raise (Exception "Subcommands can only be nested once"), example_heap).
Proof.
  apply (command_group_nested_raises example_heap 1 0 nested_group
           (VStr "roles") (VStr "Role administration") eq_refl eq_refl).
Defined.

Lemma context_menu_wire_witness :
  ContextMenu.init ContextMenu.MessageCommand report_func report_kwargs
  = Ok report_command
  ∧ ContextMenu.description report_command = ""
  ∧ ContextMenu.to_dict report_command
    = {[ "name" := JStr "Report Message";
         "description" := JStr "";
         "type" := JInt 3 ]}.
Proof.
  split; [reflexivity |].
  pose proof (context_menu_wire ContextMenu.MessageCommand report_func
                report_kwargs report_command eq_refl) as (Hd & Hw & _).
  split; [exact Hd | exact Hw].
Defined.

(** * Further properties of the module *)

#[local] Set Warnings "-clear-no-such-hyp".

(** ** Validation *)

(** A name that passes the name rule has 1 to 32 characters. *)
Lemma validate_name_ok_len (s : string) :
  Validation.validate_chat_input_name (VStr s) = Ok tt →
  1 ≤ Validation.len s ∧ Validation.len s ≤ 32.
Proof.
  unfold Validation.validate_chat_input_name.
  destruct (Validation.contains_space s); [done |].
  destruct (negb (Validation.islower s)); [done |].
  destruct (32 <? Validation.len s) eqn:H32; [done |].
  destruct (Validation.len s <? 1) eqn:H1; [done |]. intros _.
  apply Nat.ltb_ge in H32. apply Nat.ltb_ge in H1. lia.
Qed.

(** A description passes exactly when it has 1 to 100 characters, of any
    kind; a value that is not a string raises [TypeError]; and every name
    that passes the name rule passes the description rule. *)
Theorem validate_description_spec :
  (∀ s : string,
     Validation.validate_chat_input_description (VStr s) = Ok tt
     ↔ 1 ≤ Validation.len s ∧ Validation.len s ≤ 100)
  ∧ (∀ v : pyval,
       (∀ s, v ≠ VStr s) →
       Validation.validate_chat_input_description v
       = Raise (TypeError "Description of a command must be a string."))
  ∧ (∀ s : string,
       Validation.validate_chat_input_name (VStr s) = Ok tt →
       Validation.validate_chat_input_description (VStr s) = Ok tt).
Proof.
  assert (∀ s : string,
            Validation.validate_chat_input_description (VStr s) = Ok tt
            ↔ 1 ≤ Validation.len s ∧ Validation.len s ≤ 100) as Hd.
  { intros s. unfold Validation.validate_chat_input_description.
    destruct (100 <? Validation.len s) eqn:H100; simpl.
    - apply Nat.ltb_lt in H100. split; [done | lia].
    - apply Nat.ltb_ge in H100.
      destruct (Validation.len s <? 1) eqn:H1; simpl.
      + apply Nat.ltb_lt in H1. split; [done | lia].
      + apply Nat.ltb_ge in H1. split; [lia | done]. }
  split; [exact Hd |]. split.
  - intros v Hv. destruct v; try done. by destruct (Hv s).
  - intros s Hn. apply Hd. apply validate_name_ok_len in Hn. lia.
Qed.

Lemma validate_description_spec_witness :
  Validation.validate_chat_input_description (VStr "greet") = Ok tt
  ∧ Validation.validate_chat_input_description VNone
    = Raise (TypeError "Description of a command must be a string.").
Proof.
  destruct validate_description_spec as (_ & Hty & Hname).
  split.
  - apply Hname. reflexivity.
  - apply Hty. intros s. discriminate.
Defined.

(** The length error of the name rule is raised exactly for a name longer
    than 32 characters that has no space and is lowercase; the empty name
    never reaches it: it is reported as not lowercase. *)
Theorem validate_name_length_error (s : string) :
  (Validation.validate_chat_input_name (VStr s)
   = Raise (ValidationError
       "Name of a chat input command must be less than 32 characters and non empty.")
   ↔ Validation.contains_space s = false ∧ Validation.islower s = true
     ∧ 32 < Validation.len s)
  ∧ (Validation.len s = 0 →
     Validation.validate_chat_input_name (VStr s)
     = Raise (ValidationError "Name of a chat input command must be lowercase.")).
Proof.
  unfold Validation.validate_chat_input_name. split.
  - destruct (Validation.contains_space s); [split; [done | by intros (? & _)] |].
    destruct (Validation.islower s) eqn:Hl; simpl;
      [| split; [done | by intros (_ & ? & _)]].
    pose proof (proj1 (islower_spec s) Hl) as [_ Hlo].
    apply has_lower_nonempty in Hlo.
    destruct (32 <? Validation.len s) eqn:H32; simpl.
    + apply Nat.ltb_lt in H32. done.
    + apply Nat.ltb_ge in H32.
      destruct (Validation.len s <? 1) eqn:H1; simpl.
      * apply Nat.ltb_lt in H1. lia.
      * split; [done | lia].
  - intros H0. destruct s; [reflexivity | discriminate].
Qed.

Lemma validate_name_length_error_witness :
  Validation.validate_chat_input_name (VStr "")
  = Raise (ValidationError "Name of a chat input command must be lowercase.").
Proof. apply (validate_name_length_error ""). reflexivity. Defined.

(** ** The protective wrapper *)

(** Wrapping a coroutine twice is wrapping it once; the wrapper leaves
    the trace and the context of the coroutine as they are; and what
    leaves a wrapped coroutine is never a cancellation nor an ordinary
    exception: it is a command error or a class outside [Exception]. *)
Theorem wrap_callback_idempotent (coro : M pyval) (w : World) :
  wrap_callback (wrap_callback coro) w = wrap_callback coro w
  ∧ (wrap_callback coro w).2 = (coro w).2
  ∧ (∀ e, (wrap_callback coro w).1 = Raise e →
          is_cancelled e = false
          ∧ (is_command_error e = true ∨ is_exception e = false))
  ∧ (∀ e, (coro w).1 = Raise e →
          is_command_error e = false → is_cancelled e = false →
          is_exception e = true →
          (wrap_callback coro w).1 = Raise (ApplicationCommandInvokeError e)).
Proof.
  unfold wrap_callback. destruct (coro w) as [r w']. simpl.
  split; [| split; [done | split]].
  - f_equal. destruct r as [v | e]; [done |]. by destruct e.
  - intros e. destruct r as [v | e0]; [done |].
    destruct e0; simpl; intros [= <-]; simpl; auto.
  - intros e -> Hc Hx He. simpl. by rewrite Hc, Hx, He.
Qed.

Lemma wrap_callback_idempotent_witness :
  (wrap_callback (raise ValueError) (start None)).1
  = Raise (ApplicationCommandInvokeError ValueError)
  ∧ wrap_callback (wrap_callback (raise ValueError)) (start None)
    = wrap_callback (raise ValueError) (start None).
Proof.
  destruct (wrap_callback_idempotent (raise ValueError) (start None))
    as (Hidem & _ & _ & Hwrap).
  split; [| exact Hidem].
  apply Hwrap; reflexivity.
Defined.

(** ** Checks, hooks and the order of the pipeline *)

Section PipelineOrder.

Variable bot : Bot.
Variable self : ApplicationCommand.

Lemma extend_extend (w : World) (evs evs' : list Event) :
  extend (extend w evs) evs' = extend w (evs ++ evs').
Proof. unfold extend. simpl. by rewrite app_assoc. Qed.

Lemma async_all_trace (i : nat) (ps : list (Context → result bool)) (w : World) :
  ∃ evs, (async_all i ps w).2 = extend w evs
         ∧ List.filter is_after_hooks_entry evs = [].
Proof.
  revert i w. induction ps as [| p ps IH]; intros i w; simpl.
  - exists []. unfold extend. rewrite app_nil_r. by destruct w.
  - unfold bind, call.
    destruct (p (ctx w)) as [[|] | e]; simpl.
    + destruct (IH (S i) (extend w [EvPredicate i])) as (evs & Hw & Hf).
      exists (EvPredicate i :: evs). unfold extend in *. simpl in *.
      rewrite Hw. by rewrite <- app_assoc.
    + by exists [EvPredicate i].
    + by exists [EvPredicate i].
Qed.

Lemma call_before_hooks_trace (w : World) :
  ∃ evs, (call_before_hooks bot self w).2 = extend w evs
         ∧ List.filter is_after_hooks_entry evs = [].
Proof.
  unfold call_before_hooks, bind, call_opt, call, ret, extend.
  destruct (_before_invoke self) as [h |]; simpl;
    [destruct (h_run h (ctx w)); simpl |];
    (destruct (cog self) as [c |]; simpl;
     [destruct (cog_before_invoke c) as [f |]; simpl;
      [destruct (f (ctx w)); simpl |] |]);
    try (destruct (bot_before_invoke bot) as [g |]; simpl);
    rewrite <- ?app_assoc; simpl;
    try (eexists; split; [reflexivity | reflexivity]).
  all: exists []; rewrite app_nil_r; by destruct w.
Qed.

Lemma can_run_trace (w : World) :
  ∃ evs, (can_run bot self w).2 = extend w evs
         ∧ List.filter is_after_hooks_entry evs = [].
Proof.
  cbv [can_run bind call raise].
  destruct (bot_can_run bot (ctx w)) as [[|] | e]; simpl;
    [| by exists [EvBotCanRun] | by exists [EvBotCanRun]].
  destruct (checks self) as [| p ps]; [by exists [EvBotCanRun] |].
  destruct (async_all_trace 0 (p :: ps) (extend w [EvBotCanRun]))
    as (evs & Hw & Hf).
  exists (EvBotCanRun :: evs). unfold extend in *. simpl in Hw.
  rewrite Hw. simpl. by rewrite <- app_assoc.
Qed.

(** [prepare] binds the command to the context and calls checks and
    before-hooks only; it never enters the after-hook cleanup. *)
Lemma prepare_trace (w : World) :
  ∃ evs, (prepare bot self w).2
         = {| ctx := bound_to self (ctx w); trace := trace w ++ evs |}
         ∧ List.filter is_after_hooks_entry evs = [].
Proof.
  cbv [prepare bind get_ctx set_ctx raise].
  fold (bound_to self (ctx w)).
  set (w0 := {| ctx := bound_to self (ctx w); trace := trace w |}).
  destruct (can_run_trace w0) as (evs1 & Hw1 & Hf1).
  destruct (can_run bot self w0) as [[[|] | e] w1]; simpl in *; subst w1.
  - destruct (call_before_hooks_trace (extend w0 evs1)) as (evs2 & -> & Hf2).
    exists (evs1 ++ evs2). unfold extend, w0. simpl.
    rewrite <- app_assoc. split; [done |].
    by rewrite List.filter_app, Hf1, Hf2.
  - by exists evs1.
  - by exists evs1.
Qed.

End PipelineOrder.

(** When [prepare] raises (a check fails or a check or before-hook
    raises), [invoke] raises the same exception, not wrapped; the step
    [_invoke] is not run and the after-hook cleanup is not entered. *)
Theorem invoke_prepare_fails (bot : Bot) (self : ApplicationCommand)
    (_invoke : M pyval) (w w1 : World) (e : exn) :
  prepare bot self w = (Raise e, w1) →
  invoke bot self _invoke w = (Raise e, w1)
  ∧ after_hooks_runs w1 = after_hooks_runs w.
Proof.
  intros Hp. split.
  - unfold invoke, bind. by rewrite Hp.
  - destruct (prepare_trace bot self w) as (evs & Hw & Hf).
    rewrite Hp in Hw. simpl in Hw. rewrite Hw.
    unfold after_hooks_runs. simpl.
    rewrite List.filter_app, Hf. by rewrite app_nil_r.
Qed.

(** When the global check of the bot does not answer [True], [prepare]
    stops there: it has bound the command to the context and called
    nothing else, no predicate of the command and no before-hook; a false
    answer becomes [CheckFailure], an exception of the check leaves as it
    is. *)
Theorem global_check_rejects (bot : Bot) (self : ApplicationCommand)
    (w : World) (r : result bool) :
  bot_can_run bot (bound_to self (ctx w)) = r →
  r ≠ Ok true →
  prepare bot self w
  = (match r with
     | Ok _ =>
         Raise (CheckFailure
                  ("The global check functions for command " ++ name self
                   ++ " failed.")%string)
     | Raise e => Raise e
     end,
     {| ctx := bound_to self (ctx w); trace := trace w ++ [EvBotCanRun] |}).
Proof.
  intros Hr Hne.
  cbv [prepare bind get_ctx set_ctx can_run call raise]. simpl.
  fold (bound_to self (ctx w)). rewrite Hr.
  destruct r as [[|] | e]; done.
Qed.

(** An exception raised by the command's own after-hook leaves [invoke]
    in place of whatever [_invoke] produced, a normal return included, and
    the after-hooks of the cog and of the bot are not called. *)
Theorem invoke_after_hook_raises (bot : Bot) (self : ApplicationCommand)
    (_invoke : M pyval) (w w1 w2 : World) (r : result pyval) (h : Hook)
    (e : exn) :
  prepare bot self w = (Ok tt, w1) →
  _invoke w1 = (r, w2) →
  _after_invoke self = Some h →
  h_run h (ctx w2) = Raise e →
  invoke bot self _invoke w
  = (Raise e,
     extend w2 [EvCallAfterHooks;
                EvAfterInvoke (h_self h || bool_decide (is_Some (cog self)))]).
Proof.
  intros Hp Hi Hh He.
  cbv [invoke bind hooked_wrapped_callback try_finally wrap_callback].
  rewrite Hp, Hi.
  cbv [call_after_hooks bind log call]. rewrite Hh. simpl. rewrite He.
  unfold extend. by rewrite <- app_assoc.
Qed.

(** A command invoked from the step of another one (as a group does with
    its child): an ordinary exception of the inner step is wrapped once,
    by the inner command, and passes through the outer wrapper unchanged;
    a cancellation of the inner step ends both invocations normally; both
    cleanups run, the inner one first. *)
Theorem invoke_nested_wraps_once (bot : Bot) (parent child : ApplicationCommand)
    (body : M pyval) (w w1 w2 w3 w4 w5 : World) (r : result pyval) :
  prepare bot parent w = (Ok tt, w1) →
  prepare bot child w1 = (Ok tt, w2) →
  body w2 = (r, w3) →
  call_after_hooks bot child w3 = (Ok tt, w4) →
  call_after_hooks bot parent w4 = (Ok tt, w5) →
  invoke bot parent (invoke bot child body) w
  = (match protect r with
     | Ok _ => Ok VNone
     | Raise e => Raise e
     end, w5).
Proof.
  intros Hp Hc Hb Hac Hap.
  assert (invoke bot child body w1
          = (match protect r with Ok _ => Ok VNone | Raise e => Raise e end, w4))
    as Hinner.
  { cbv [invoke bind hooked_wrapped_callback try_finally wrap_callback ret].
    rewrite Hc, Hb, Hac. by destruct (protect r). }
  cbv [invoke bind hooked_wrapped_callback try_finally wrap_callback ret] in *.
  rewrite Hp, Hinner, Hap.
  destruct r as [v | e]; simpl; [done |].
  destruct (is_command_error e) eqn:Hce; simpl; [by rewrite Hce |].
  destruct (is_cancelled e); simpl; [done |].
  destruct (is_exception e) eqn:Hex; simpl; [done |].
  by rewrite Hce, Hex; destruct e.
Qed.

(** The order of a whole invocation in which the global check passes,
    the command has no predicate and every hook is set and returns: the
    global check, the before-hooks of the command, of the cog and of the
    bot, the step itself, then the after-hooks of the command, of the cog
    and of the bot; the result is [None]. *)
Theorem invoke_pipeline_order (bot : Bot) (self : ApplicationCommand)
    (_invoke : M pyval) (w : World) (hb ha : Hook) (c : Cog)
    (fb fa gb ga : hook_fn) (v : pyval) (evs : list Event) :
  checks self = [] →
  (∀ x, bot_can_run bot x = Ok true) →
  _before_invoke self = Some hb → (∀ x, h_run hb x = Ok tt) →
  _after_invoke self = Some ha → (∀ x, h_run ha x = Ok tt) →
  cog self = Some c →
  cog_before_invoke c = Some fb → (∀ x, fb x = Ok tt) →
  cog_after_invoke c = Some fa → (∀ x, fa x = Ok tt) →
  bot_before_invoke bot = Some gb → (∀ x, gb x = Ok tt) →
  bot_after_invoke bot = Some ga → (∀ x, ga x = Ok tt) →
  (∀ w1, _invoke w1 = (Ok v, extend w1 evs)) →
  invoke bot self _invoke w
  = (Ok VNone,
     {| ctx := bound_to self (ctx w);
        trace := trace w
                 ++ [EvBotCanRun; EvBeforeInvoke true; EvCogBeforeInvoke;
                     EvBotBeforeInvoke]
                 ++ evs
                 ++ [EvCallAfterHooks; EvAfterInvoke true; EvCogAfterInvoke;
                     EvBotAfterInvoke] |}).
Proof.
  intros Hchecks Hcan Hhb Hhbr Hha Hhar Hcog Hfb Hfbr Hfa Hfar Hgb Hgbr Hga Hgar
    Hbody.
  cbv [invoke prepare bind get_ctx set_ctx can_run call raise ret
       hooked_wrapped_callback try_finally wrap_callback
       call_before_hooks call_after_hooks call_opt log].
  rewrite Hcan, Hchecks. simpl.
  rewrite Hhb, Hcog, Hfb, Hgb, Hhbr, Hfbr, Hgbr. simpl.
  rewrite Hbody. simpl.
  rewrite ?Hha, ?Hfa, ?Hga, ?Hhar, ?Hfar, ?Hgar. simpl.
  rewrite ?Hha, ?Hfa, ?Hga, ?Hhar, ?Hfar, ?Hgar. simpl.
  rewrite orb_true_r. unfold bound_to, extend. simpl.
  rewrite <- ?app_assoc. simpl. rewrite <- ?app_assoc.
  by rewrite ?orb_true_r.
Qed.

Lemma invoke_prepare_fails_witness :
  invoke strict_bot (plain_command "ping") (raise ValueError) (start None)
  = (Raise (CheckFailure "The global check functions for command ping failed."),
     {| ctx := {| ctx_command := Some "ping"; command_failed := false;
                  data_options := None |};
        trace := [EvBotCanRun] |}).
Proof.
  apply (invoke_prepare_fails strict_bot (plain_command "ping")
           (raise ValueError) (start None) _ _ eq_refl).
Defined.

Lemma global_check_rejects_witness :
  prepare strict_bot (plain_command "ping") (start None)
  = (Raise (CheckFailure "The global check functions for command ping failed."),
     {| ctx := {| ctx_command := Some "ping"; command_failed := false;
                  data_options := None |};
        trace := [EvBotCanRun] |}).
Proof.
  apply (global_check_rejects strict_bot (plain_command "ping") (start None)
           (Ok false) eq_refl). discriminate.
Defined.

Lemma invoke_after_hook_raises_witness :
  invoke quiet_bot untidy_command (ret (VStr "done")) (start None)
  = (Raise (Exception "cleanup failed"),
     {| ctx := {| ctx_command := Some "ping"; command_failed := false;
                  data_options := None |};
        trace := [EvBotCanRun; EvCallAfterHooks; EvAfterInvoke false] |}).
Proof.
  set (w1 := (prepare quiet_bot untidy_command (start None)).2).
  apply (invoke_after_hook_raises quiet_bot untidy_command (ret (VStr "done"))
           (start None) w1 w1 (Ok (VStr "done")) failing_hook
           (Exception "cleanup failed") eq_refl eq_refl eq_refl eq_refl).
Defined.

Lemma invoke_nested_wraps_once_witness :
  invoke quiet_bot (plain_command "admin")
    (invoke quiet_bot (plain_command "ban") (raise ValueError)) (start None)
  = (Raise (ApplicationCommandInvokeError ValueError),
     {| ctx := {| ctx_command := Some "ban"; command_failed := false;
                  data_options := None |};
        trace := [EvBotCanRun; EvBotCanRun; EvCallAfterHooks; EvCallAfterHooks] |}).
Proof.
  set (w1 := (prepare quiet_bot (plain_command "admin") (start None)).2).
  set (w2 := (prepare quiet_bot (plain_command "ban") w1).2).
  set (w4 := (call_after_hooks quiet_bot (plain_command "ban") w2).2).
  set (w5 := (call_after_hooks quiet_bot (plain_command "admin") w4).2).
  apply (invoke_nested_wraps_once quiet_bot (plain_command "admin")
           (plain_command "ban") (raise ValueError) (start None) w1 w2 w2 w4 w5
           (Raise ValueError) eq_refl eq_refl eq_refl eq_refl eq_refl).
Defined.

Lemma invoke_pipeline_order_witness :
  invoke hooked_bot hooked_command (ret (VStr "done")) (start None)
  = (Ok VNone,
     {| ctx := {| ctx_command := Some "ping"; command_failed := false;
                  data_options := None |};
        trace := [EvBotCanRun; EvBeforeInvoke true; EvCogBeforeInvoke;
                  EvBotBeforeInvoke; EvCallAfterHooks; EvAfterInvoke true;
                  EvCogAfterInvoke; EvBotAfterInvoke] |}).
Proof.
  apply (invoke_pipeline_order hooked_bot hooked_command (ret (VStr "done"))
           (start None) quiet_hook quiet_hook hooked_cog
           (fun _ => Ok tt) (fun _ => Ok tt) (fun _ => Ok tt) (fun _ => Ok tt)
           (VStr "done") []);
    try reflexivity.
  intros w1. unfold ret, extend. rewrite app_nil_r. by destruct w1.
Defined.

(** ** Error dispatch and registration *)

Lemma protect_raise (r : result pyval) (e : exn) :
  protect r = Raise e →
  is_cancelled e = false ∧ (is_command_error e = true ∨ is_exception e = false).
Proof.
  destruct r as [v | e0]; [done |].
  destruct e0; simpl; intros [= <-]; simpl; auto.
Qed.

Ltac dispatch_returns :=
  split; [by intros ? [= <-] | by intros ? [=]].

(** When [dispatch_error] returns it returns [None]; and what it raises
    is never a cancellation nor an ordinary exception, only a command
    error or a class outside [Exception]. *)
Theorem dispatch_error_outcome (bot : Bot) (self : ApplicationCommand)
    (error : exn) (w : World) :
  (∀ v, (dispatch_error bot self error w).1 = Ok v → v = VNone)
  ∧ (∀ e, (dispatch_error bot self error w).1 = Raise e →
          is_cancelled e = false
          ∧ (is_command_error e = true ∨ is_exception e = false)).
Proof.
  cbv [dispatch_error bind get_ctx set_ctx try_finally wrap_callback call log ret].
  simpl.
  destruct (on_error self) as [coro |]; simpl.
  - destruct (protect (run_handler coro error (mark_failed (ctx w)))) as [v | e0]
      eqn:Hp; simpl.
    + destruct (cog self) as [cg |]; simpl; [| dispatch_returns].
      destruct (cog_command_error cg) as [local |]; simpl; [| dispatch_returns].
      destruct (protect (run_handler local error (mark_failed (ctx w))))
        as [v' | e1] eqn:Hq; simpl.
      * dispatch_returns.
      * split; [done |]. intros e [= <-]. by eapply protect_raise.
    + split; [done |]. intros e [= <-]. by eapply protect_raise.
  - destruct (cog self) as [cg |]; simpl; [| dispatch_returns].
    destruct (cog_command_error cg) as [local |]; simpl; [| dispatch_returns].
    destruct (protect (run_handler local error (mark_failed (ctx w))))
      as [v' | e1] eqn:Hq; simpl.
    + dispatch_returns.
    + split; [done |]. intros e [= <-]. by eapply protect_raise.
Qed.

(** When the local error handler is absent, returns or is cancelled, the
    last call of [dispatch_error] is the dispatch of the framework-wide
    event "application_command_error" with the error, whatever the error
    hook of the cog does. *)
Theorem dispatch_error_dispatches_last (bot : Bot) (self : ApplicationCommand)
    (error : exn) (w : World) :
  handler_passes self error (mark_failed (ctx w)) = true →
  ∃ (evs : list Event) (failed : bool),
    trace (dispatch_error bot self error w).2
    = trace w ++ evs ++ [EvDispatch "application_command_error" failed error].
Proof.
  intros Hpass.
  destruct (dispatch_error_dispatches bot self error w Hpass) as [evs Hevs].
  by exists evs, true.
Qed.

Lemma dispatch_error_dispatches_last_witness :
  ∃ (evs : list Event) (failed : bool),
    trace (dispatch_error quiet_bot cog_command (Exception "boom")
             (start None)).2
    = [] ++ evs ++ [EvDispatch "application_command_error" failed
                      (Exception "boom")].
Proof.
  apply (dispatch_error_dispatches_last quiet_bot cog_command (Exception "boom")
           (start None)).
  reflexivity.
Defined.

(** Registering a coroutine as the local error handler makes
    [has_error_handler] true, replaces an earlier handler, changes nothing
    else of the command, and makes [dispatch_error] call that handler
    before anything else; something that is not a coroutine function is
    refused with [TypeError]. *)
Theorem error_registers (self : ApplicationCommand) (coro : error_fn) :
  Registration.error self false coro
  = Raise (TypeError "The error handler must be a coroutine.")
  ∧ ∃ self',
      Registration.error self true coro = Ok self'
      ∧ Registration.has_error_handler self' = true
      ∧ on_error self' = Some coro
      ∧ (name self', cog self', checks self', _before_invoke self',
         _after_invoke self')
        = (name self, cog self, checks self, _before_invoke self,
           _after_invoke self)
      ∧ (∀ coro', Registration.error self' true coro'
                  = Registration.error self true coro')
      ∧ (∀ bot e w,
           ∃ evs, trace (dispatch_error bot self' e w).2
                  = trace w
                    ++ EvOnError (bool_decide (is_Some (cog self))) e :: evs).
Proof.
  split; [done |]. eexists. split; [reflexivity |].
  repeat split.
  intros bot e w.
  cbv [dispatch_error bind get_ctx set_ctx try_finally wrap_callback call log ret].
  simpl.
  destruct (protect (run_handler coro e (mark_failed (ctx w)))); simpl;
    [| by eexists].
  destruct (cog self) as [cg |]; simpl; [| rewrite <- app_assoc; by eexists].
  destruct (cog_command_error cg) as [local |]; simpl;
    [| rewrite <- app_assoc; by eexists].
  destruct (protect (run_handler local e (mark_failed (ctx w)))); simpl;
    rewrite <- !app_assoc; by eexists.
Qed.

(** Registering an after-hook makes the cleanup call it first, right
    after the cleanup is entered, and leaves the before-hooks and the
    error dispatch as they were; something that is not a coroutine
    function is refused with [TypeError]. *)
Theorem after_invoke_registers (self : ApplicationCommand) (coro : Hook) :
  Registration.after_invoke self false coro
  = Raise (TypeError "The post-invoke hook must be a coroutine.")
  ∧ ∃ self',
      Registration.after_invoke self true coro = Ok self'
      ∧ (∀ bot w, call_before_hooks bot self' w = call_before_hooks bot self w)
      ∧ (∀ bot e w, dispatch_error bot self' e w = dispatch_error bot self e w)
      ∧ (∀ bot w,
           ∃ evs, trace (call_after_hooks bot self' w).2
                  = trace w
                    ++ EvCallAfterHooks
                       :: EvAfterInvoke
                            (h_self coro || bool_decide (is_Some (cog self)))
                       :: evs).
Proof.
  split; [done |]. eexists. split; [reflexivity |].
  repeat split.
  intros bot w.
  cbv [call_after_hooks bind log call call_opt ret]. simpl.
  destruct (h_run coro (ctx w)); simpl; [| rewrite <- app_assoc; by eexists].
  destruct (cog self) as [c |]; simpl.
  - destruct (cog_after_invoke c) as [f |]; simpl.
    + destruct (f (ctx w)); simpl.
      * destruct (bot_after_invoke bot); simpl;
          rewrite <- !app_assoc; by eexists.
      * rewrite <- !app_assoc; by eexists.
    + destruct (bot_after_invoke bot); simpl;
        rewrite <- !app_assoc; by eexists.
  - destruct (bot_after_invoke bot); simpl;
      rewrite <- !app_assoc; by eexists.
Qed.

(** ** The option builder and the schema it yields *)

Section BuilderFacts.
Import Options Slash.

(** The last two steps of the loop body, on the option reached so far. *)
Lemma parse_option_shape (p : Param) :
  ∃ o : Option,
    parse_option p
    = (let o4 := if is_empty (o_default o) then set_default VNone o else o in
       match o_name o4 with
       | None => set_name (Some (p_name p)) o4
       | Some _ => o4
       end).
Proof. unfold parse_option. cbv zeta. eexists. reflexivity. Qed.

Lemma parse_option_named (p : Param) : is_Some (o_name (parse_option p)).
Proof.
  destruct (parse_option_shape p) as [o ->]. cbv zeta.
  destruct (is_empty (o_default o)); simpl;
    destruct (o_name o) eqn:Hn; simpl; rewrite ?Hn; done.
Qed.

Lemma parse_option_default_set (p : Param) :
  is_empty (o_default (parse_option p)) = false.
Proof.
  destruct (parse_option_shape p) as [o ->]. cbv zeta.
  destruct (is_empty (o_default o)) eqn:He; simpl;
    destruct (o_name o) eqn:Hn; simpl; rewrite ?Hn; done.
Qed.

Lemma dom_fill_defaults (os : list Option) (kw : gmap string pyval) :
  dom (fill_defaults os kw) = dom kw ∪ list_to_set (omap o_name os).
Proof.
  revert kw. induction os as [| o os IH]; intros kw.
  { simpl. set_solver. }
  cbn [fill_defaults omap list_omap].
  destruct (o_name o) as [m |]; [| apply IH].
  cbn [list_to_set].
  destruct (kw !! m) as [v |] eqn:Hm; rewrite IH.
  - assert (m ∈ dom kw) as Hin by (apply elem_of_dom; eauto).
    clear -Hin. set_solver.
  - rewrite dom_insert_L. set_solver.
Qed.

End BuilderFacts.

(** [parse_options] skips the owner parameter when the command has a cog
    and then the context parameter: with fewer parameters it raises
    [ClientException] naming the one that is missing ("self" before
    "ctx"); otherwise it returns one option per remaining parameter, in
    order. *)
Theorem parse_options_arity (cog : option Cog) (command : string)
    (params : list Slash.Param) :
  Slash.parse_options cog command params
  = match cog, params with
    | Some _, [] => Raise (Slash.missing_parameter command "self")
    | Some _, [_] | None, [] => Raise (Slash.missing_parameter command "ctx")
    | Some _, _ :: _ :: rest | None, _ :: rest =>
        Ok (map Slash.parse_option rest)
    end
  ∧ (∀ opts, Slash.parse_options cog command params = Ok opts →
       length opts + match cog with Some _ => 2 | None => 1 end
       = length params).
Proof.
  split.
  - destruct cog, params as [| p [| q rest]]; reflexivity.
  - intros opts.
    destruct cog, params as [| p [| q rest]]; cbn [Slash.parse_options];
      try done; intros [= <-]; cbn [length]; rewrite ?List.length_map;
      cbn [length]; lia.
Qed.

Lemma parse_options_arity_witness :
  length (map Slash.parse_option (tail example_params)) + 1
  = length example_params.
Proof.
  apply (proj2 (parse_options_arity None "f" example_params)
           (map Slash.parse_option (tail example_params)) eq_refl).
Defined.

Lemma parse_options_inv (cog : option Cog) (command : string)
    (params : list Slash.Param) (opts : list Options.Option) :
  Slash.parse_options cog command params = Ok opts →
  ∃ rest, opts = map Slash.parse_option rest.
Proof.
  intros H.
  destruct cog, params as [| p [| q rest]];
    cbn [Slash.parse_options] in H; try done;
    injection H as <-;
    first [by exists [] | by exists rest | by exists (q :: rest)].
Qed.

Lemma built_options_named (rest : list Slash.Param) :
  existsb Slash.unnamed (map Slash.parse_option rest) = false.
Proof.
  induction rest as [| p rest IH]; [done |]. simpl.
  rewrite IH, orb_false_r. unfold Slash.unnamed.
  by destruct (parse_option_named p) as [n ->].
Qed.

Lemma built_options_defaults (rest : list Slash.Param) :
  Forall (λ o, is_Some (Options.o_name o)
               ∧ is_empty (Options.o_default o) = false)
    (map Slash.parse_option rest).
Proof.
  apply Forall_map, Forall_forall. intros p _. simpl.
  split; [apply parse_option_named | apply parse_option_default_set].
Qed.

(** Every option that [parse_options] returns has a name, and its default
    is never the sentinel of a missing default; so the schema of a built
    command never makes [_invoke] fail on a keyword that is not a
    string. *)
Theorem parse_options_named (cog : option Cog) (command : string)
    (params : list Slash.Param) (opts : list Options.Option) :
  Slash.parse_options cog command params = Ok opts →
  Forall (λ o, is_Some (Options.o_name o)
               ∧ is_empty (Options.o_default o) = false) opts
  ∧ existsb Slash.unnamed opts = false.
Proof.
  intros H. apply parse_options_inv in H as [rest ->].
  split; [apply built_options_defaults | apply built_options_named].
Qed.

Lemma parse_options_named_witness :
  existsb Slash.unnamed
    (map Slash.parse_option (tail example_params)) = false.
Proof.
  apply (parse_options_named None "f" example_params
           (map Slash.parse_option (tail example_params)) eq_refl).
Defined.

(** An explicit [Option] annotation keeps its description, its type, its
    choices and its required flag whatever the parameter declares: a
    declared default does not make it optional (only a plain annotation is
    made optional by a default). *)
Theorem parse_option_explicit_kept (n : string) (o : Options.Option) (d : pyval) :
  let built := Slash.parse_option
                 {| Slash.p_name := n; Slash.p_annotation := Slash.AnnOption o;
                    Slash.p_default := d |} in
  Options.o_required built = Options.o_required o
  ∧ Options.o_description built = Options.o_description o
  ∧ Options.o_input_type built = Options.o_input_type o
  ∧ Options.o_choices built = Options.o_choices o
  ∧ (∀ t, Options.o_required
            (Slash.parse_option
               {| Slash.p_name := n; Slash.p_annotation := Slash.AnnType t;
                  Slash.p_default := d |})
          = is_empty d).
Proof.
  destruct o as [on od ot orq oc odf]. cbv zeta.
  unfold Slash.parse_option. simpl.
  destruct (is_empty (py_or odf d)); simpl; destruct on; simpl;
    repeat split; intros t; by destruct d.
Qed.

(** A command whose schema was built by [parse_options], invoked with an
    empty or missing options payload, calls its callback with exactly one
    keyword per option name, each bound to the default of the first option
    of that name, and no keyword is bound to the sentinel of a missing
    default. *)
Theorem built_schema_invoke (env : Slash.Env) (self : Slash.SlashCommand)
    (cog : option Cog) (command : string) (params : list Slash.Param)
    (w : World) :
  Slash.parse_options cog command params = Ok (Slash.options self) →
  default [] (data_options (ctx w)) = [] →
  let kwargs := Slash.fill_defaults (Slash.options self) ∅ in
  Slash._invoke env self w
  = (match Slash.callback self (ctx w) kwargs with
     | Ok _ => Ok VNone
     | Raise e => Raise e
     end, extend w [EvCallback kwargs])
  ∧ dom kwargs = list_to_set (omap Options.o_name (Slash.options self))
  ∧ (∀ n, kwargs !! n
          = Options.o_default <$> Slash.find_option n (Slash.options self))
  ∧ (∀ n v, kwargs !! n = Some v → is_empty v = false).
Proof.
  intros Hparse Hempty kwargs.
  apply parse_options_inv in Hparse as [rest Hrest].
  assert (∀ n, kwargs !! n
               = Options.o_default <$> Slash.find_option n (Slash.options self))
    as Hlookup.
  { intros n. unfold kwargs. by rewrite fill_defaults_lookup, lookup_empty. }
  split; [| split; [| split; [exact Hlookup |]]].
  - apply (_invoke_run env (Slash.options self)); [done | | ].
    + by rewrite Hempty.
    + rewrite Hrest. apply built_options_named.
  - unfold kwargs. rewrite dom_fill_defaults. set_solver.
  - intros n v. rewrite Hlookup.
    destruct (Slash.find_option n (Slash.options self)) as [o |] eqn:Hf; [| done].
    intros [= <-]. apply List.find_some in Hf as [Hin _].
    pose proof (built_options_defaults rest) as Hall.
    rewrite <- Hrest in Hall. rewrite Forall_forall in Hall.
    apply list_elem_of_In in Hin. by apply Hall.
Qed.


(** ** Construction of slash commands *)

(** A slash command that was constructed has a name and a description
    that pass the validation rules, the name being the keyword [name] when
    it is given and true and the name of the callback otherwise; its
    callback is a coroutine function; it is not a sub-command, has no cog,
    no error handler and no hooks; its options are the parsed parameters
    after the context parameter, all named; and its wire dictionary has no
    key "type". *)
Theorem slash_init_valid (func : SlashBuild.Func) (kwargs : SlashBuild.Kwargs)
    (cmd : Slash.SlashCommand) :
  SlashBuild.init func kwargs = Ok cmd →
  Validation.validate_chat_input_name (VStr (name (Slash.base cmd))) = Ok tt
  ∧ Validation.validate_chat_input_description (VStr (Slash.description cmd))
    = Ok tt
  ∧ VStr (name (Slash.base cmd))
    = py_or (SlashBuild.kwargs_get (SlashBuild.kw_name kwargs))
        (VStr (SlashBuild.f_name func))
  ∧ SlashBuild.f_is_coroutine func = true
  ∧ (Slash.is_subcommand cmd, cog (Slash.base cmd), on_error (Slash.base cmd),
     _before_invoke (Slash.base cmd), _after_invoke (Slash.base cmd))
    = (false, None, None, None, None)
  ∧ Slash.options cmd
    = map Slash.parse_option (tail (SlashBuild.f_params func))
  ∧ existsb Slash.unnamed (Slash.options cmd) = false
  ∧ (∃ d, Slash.to_dict cmd = JDict d ∧ d !! "type" = None).
Proof.
  unfold SlashBuild.init.
  destruct (SlashBuild.f_is_coroutine func); simpl; [| done].
  set (given := py_or _ _).
  destruct (Validation.validate_chat_input_name given) as [[] |] eqn:Hn; [| done].
  destruct (SlashBuild.description_of func kwargs) as [descr |]; [| done].
  destruct (Validation.validate_chat_input_description descr) as [[] |] eqn:Hd;
    [| done].
  destruct given as [| | | n | |] eqn:Hg; try done.
  destruct descr as [| | | d | |]; try done.
  destruct (SlashBuild.f_params func) as [| p rest] eqn:Hps; [done |].
  simpl. intros [= <-]. simpl.
  repeat split; try done.
  - apply built_options_named.
  - eexists. split; [reflexivity |]. by simplify_map_eq.
Qed.

(** ** Building groups *)

Section GroupBuilding.
Import Group.

(** On a top-level group, with a name and a description that pass the
    validation rules, [command_group] adds one group object at the end of
    the heap and returns it: the new group has the given name, the type
    sub-command-group, no children and [self] as parent; it is appended to
    the children of [self]; every other object is left as it was. *)
Theorem command_group_attaches (h : Heap) (self : nat) (g : SubCommandGroup)
    (n d : string) :
  h !! self = Some g →
  parent_group g = None →
  Validation.validate_chat_input_name (VStr n) = Ok tt →
  Validation.validate_chat_input_description (VStr d) = Ok tt →
  ∃ (sub : SubCommandGroup) (h' : Heap),
    command_group h self (VStr n) (VStr d) = Some (Ok (length h), h')
    ∧ length h' = S (length h)
    ∧ h' !! length h = Some sub
    ∧ parent_group sub = Some self
    ∧ subcommands sub = []
    ∧ Options.o_name (as_option sub) = Some n
    ∧ Options.o_input_type (as_option sub) = Options.sub_command_group
    ∧ (∃ g', h' !! self = Some g'
             ∧ subcommands g' = subcommands g ++ [ChildGroup (length h)]
             ∧ parent_group g' = None
             ∧ as_option g' = as_option g)
    ∧ (∀ j, j ≠ self → j < length h → h' !! j = h !! j).
Proof.
  intros Hg Hp Hn Hd.
  assert (self < length h) as Hself by (by eapply lookup_lt_Some).
  unfold command_group. rewrite Hg, Hp. unfold init. rewrite Hn, Hd.
  eexists _, _. split; [reflexivity |].
  split; [rewrite length_app, length_insert; simpl; lia |].
  split.
  { rewrite lookup_attached by done.
    rewrite decide_False by lia. by rewrite decide_True. }
  do 4 (split; [reflexivity |]).
  split.
  - eexists. rewrite lookup_attached by done. rewrite decide_True by done.
    by repeat split.
  - intros j Hj Hlt. rewrite lookup_attached by done.
    rewrite decide_False by done. by rewrite decide_False by lia.
Qed.

(** [command_group] either fails and leaves the heap exactly as it was,
    or returns the reference of the one object it added at the end. *)
Theorem command_group_atomic (h h' : Heap) (self : nat) (n d : pyval)
    (out : result nat) :
  command_group h self n d = Some (out, h') →
  match out with
  | Raise _ => h' = h
  | Ok ref => ref = length h ∧ length h' = S (length h)
              ∧ ∃ g, h !! self = Some g ∧ parent_group g = None
  end.
Proof.
  unfold command_group.
  destruct (h !! self) as [g |] eqn:Hg; [| done].
  destruct (parent_group g) as [p |] eqn:Hp; [by intros [= <- <-] |].
  destruct (init n d None (Some self)) as [sub | e]; [| by intros [= <- <-]].
  intros [= <- <-]. split; [done |].
  split; [| by eexists].
  rewrite length_app, length_insert. simpl. lia.
Qed.

End GroupBuilding.

Lemma slash_init_valid_witness :
  ∃ cmd, SlashBuild.init greet_func no_kwargs = Ok cmd
         ∧ VStr (name (Slash.base cmd)) = VStr "greet"
         ∧ existsb Slash.unnamed (Slash.options cmd) = false.
Proof.
  destruct (SlashBuild.init greet_func no_kwargs) as [cmd |] eqn:Hinit;
    [| discriminate].
  exists cmd.
  pose proof (slash_init_valid greet_func no_kwargs cmd Hinit)
    as (_ & _ & Hfrom & _ & _ & _ & Hnamed & _).
  split; [reflexivity |]. split; [exact Hfrom | exact Hnamed].
Defined.

Lemma command_group_attaches_witness :
  ∃ sub h',
    Group.command_group [top_group] 0 (VStr "users") (VStr "User administration")
    = Some (Ok 1, h')
    ∧ h' !! 1 = Some sub ∧ Group.parent_group sub = Some 0.
Proof.
  destruct (command_group_attaches [top_group] 0 top_group "users"
              "User administration" eq_refl eq_refl eq_refl eq_refl)
    as (sub & h' & Hcall & _ & Hsub & Hparent & _).
  by exists sub, h'.
Defined.

Lemma command_group_atomic_witness :
  ∃ h', Group.command_group [top_group] 0 (VStr "users")
          (VStr "User administration") = Some (Ok 1, h')
        ∧ length h' = 2.
Proof.
  eexists. split; [reflexivity |].
  apply (command_group_atomic [top_group] _ 0 (VStr "users")
           (VStr "User administration") (Ok 1) eq_refl).
Defined.

Lemma built_schema_invoke_witness :
  Slash.fill_defaults (Slash.options greet_command) ∅ !! "b" = Some (VStr "x")
  ∧ dom (Slash.fill_defaults (Slash.options greet_command) ∅)
    = list_to_set ["a"; "b"; "c"].
Proof.
  pose proof (built_schema_invoke example_env greet_command None "greet"
                example_params (start None) eq_refl eq_refl)
    as (_ & Hdom & Hlookup & _).
  split; [rewrite Hlookup; reflexivity | exact Hdom].
Defined.

(** The decorator [command] of a group builds a slash command from the
    callback, marks it as a sub-command and appends it to the children of
    the group, leaving every other object and the size of the heap as they
    were; the wire dictionary of the returned command has type 1; when the
    construction fails the heap is left as it was. *)
Theorem group_command_appends (h h' : Group.Heap) (self : nat)
    (func : SlashBuild.Func) (kwargs : SlashBuild.Kwargs)
    (out : result Slash.SlashCommand) :
  SlashBuild.command h self func kwargs = Some (out, h') →
  match out with
  | Raise e => h' = h ∧ SlashBuild.init func kwargs = Raise e
  | Ok c =>
      Slash.is_subcommand c = true
      ∧ (∃ d, Slash.to_dict c = JDict d ∧ d !! "type" = Some (JInt 1))
      ∧ (∃ c0, SlashBuild.init func kwargs = Ok c0
               ∧ c = SlashBuild.as_subcommand c0)
      ∧ length h' = length h
      ∧ (∃ g, h !! self = Some g
              ∧ h' !! self
                = Some (Group.append_child (Group.ChildCommand c) g))
      ∧ (∀ j, j ≠ self → h' !! j = h !! j)
  end.
Proof.
  unfold SlashBuild.command.
  destruct (h !! self) as [g |] eqn:Hg; [| done].
  destruct (SlashBuild.init func kwargs) as [c0 | e]; [| by intros [= <- <-]].
  intros [= <- <-].
  assert (self < length h) as Hself by (by eapply lookup_lt_Some).
  split; [done |]. split.
  { eexists. split; [reflexivity |]. by simplify_map_eq. }
  split; [by eexists |].
  split; [by rewrite length_insert |].
  split.
  - exists g. split; [done |]. by rewrite list_lookup_insert_eq.
  - intros j Hj. by rewrite list_lookup_insert_ne.
Qed.

Lemma group_command_appends_witness :
  ∃ c h', SlashBuild.command [top_group] 0 greet_func no_kwargs = Some (Ok c, h')
          ∧ Slash.is_subcommand c = true ∧ length h' = 1.
Proof.
  destruct (SlashBuild.command [top_group] 0 greet_func no_kwargs)
    as [[[c | e] h'] |] eqn:Hcall; try discriminate.
  exists c, h'.
  pose proof (group_command_appends [top_group] h' 0 greet_func no_kwargs (Ok c)
                Hcall) as (Hsub & _ & _ & Hlen & _).
  split; [reflexivity |]. split; [exact Hsub | exact Hlen].
Defined.

(** ** Equality and wire form of slash commands *)

(** Equality of slash commands is an equivalence relation: reflexive,
    symmetric and transitive. *)
Theorem slash_eq_equivalence (a b c : Slash.SlashCommand) :
  Slash.eq a (Slash.ObjSlash a) = true
  ∧ Slash.eq a (Slash.ObjSlash b) = Slash.eq b (Slash.ObjSlash a)
  ∧ (Slash.eq a (Slash.ObjSlash b) = true →
     Slash.eq b (Slash.ObjSlash c) = true →
     Slash.eq a (Slash.ObjSlash c) = true).
Proof.
  unfold Slash.eq. split; [by rewrite !String.eqb_refl |]. split.
  - by rewrite (String.eqb_sym (name (Slash.base b))),
      (String.eqb_sym (Slash.description b)).
  - rewrite !andb_true_iff, !String.eqb_eq. intros [-> ->] [-> ->]. done.
Qed.

(** The wire dictionary of a slash command has the keys name, description
    and options, and the key type, with value 1, exactly when the command
    is a sub-command; the options are listed in schema order, each with
    the five keys of an option and without its default. *)
Theorem slash_to_dict_keys (self : Slash.SlashCommand) :
  ∃ (d : gmap string json) (os : list json),
    Slash.to_dict self = JDict d
    ∧ d !! "name" = Some (JStr (name (Slash.base self)))
    ∧ d !! "description" = Some (JStr (Slash.description self))
    ∧ d !! "options" = Some (JList os)
    ∧ os = map Options.Option_to_dict (Slash.options self)
    ∧ d !! "type"
      = (if Slash.is_subcommand self then Some (JInt 1) else None)
    ∧ dom d = {[ "name"; "description"; "options" ]}
              ∪ (if Slash.is_subcommand self then {[ "type" ]} else ∅)
    ∧ Forall (λ o, ∃ od, Options.Option_to_dict o = JDict od
                         ∧ dom od = {[ "name"; "description"; "type";
                                       "required"; "choices" ]})
        (Slash.options self).
Proof.
  unfold Slash.to_dict.
  destruct (Slash.is_subcommand self);
    eexists _, (map Options.Option_to_dict (Slash.options self));
    (split; [reflexivity |]);
    (split; [by simplify_map_eq |]);
    (split; [by simplify_map_eq |]);
    (split; [by simplify_map_eq |]);
    (split; [reflexivity |]);
    (split; [by simplify_map_eq |]);
    (split; [rewrite !dom_insert_L, dom_empty_L; set_solver |]);
    apply Forall_forall; intros o _; eexists; (split; [reflexivity |]);
    rewrite !dom_insert_L, dom_empty_L; set_solver.
Qed.

(** ** Resolution of the payload by option type *)

(** What the first loop of [_invoke] does with one pair whose option is in
    the schema, by the type of the option: a user, channel or role option
    is looked up in the guild under "member", "channel" or "role" and the
    outcome of the lookup is the outcome of the step, with no fallback; a
    mentionable option is looked up as a member and, only on not-found, as
    a role; every other type passes the raw value through without calling
    the guild. *)
Theorem resolve_by_type (env : Slash.Env) (opts : list Options.Option)
    (a : Arg) (op : Options.Option) (v : pyval) (w : World) :
  Slash.find_option (arg_name a) opts = Some op →
  arg_value a = Some v →
  let lookup (attr : string) :=
    match Slash.py_int env v with
    | Ok id => (Slash.get_or_fetch env attr id, extend w [EvGetOrFetch attr id])
    | Raise e => (Raise e, w)
    end in
  Slash.resolve env opts a w
  = match Options.o_input_type op with
    | Options.user => lookup "member"
    | Options.channel => lookup "channel"
    | Options.role => lookup "role"
    | Options.mentionable =>
        match Slash.py_int env v with
        | Raise e => (Raise e, w)
        | Ok id =>
            match Slash.get_or_fetch env "member" id with
            | Raise NotFound =>
                (Slash.get_or_fetch env "role" id,
                 extend w [EvGetOrFetch "member" id; EvGetOrFetch "role" id])
            | r => (r, extend w [EvGetOrFetch "member" id])
            end
        end
    | _ => (Ok v, w)
    end.
Proof.
  intros Hf Hv lookup. unfold Slash.resolve. rewrite Hf, Hv.
  unfold lookup, Slash.except_not_found, Slash.fetch, Slash.lift, bind, call,
    ret, extend.
  destruct (Options.o_input_type op); simpl; try reflexivity;
    destruct (Slash.py_int env v) as [id | e]; simpl; try reflexivity;
    try (by destruct (is_not_found e)).
  destruct (Slash.get_or_fetch env "member" id) as [r | e]; [done |].
  destruct e; simpl; try reflexivity.
  by rewrite <- app_assoc.
Qed.

Lemma resolve_by_type_witness :
  Slash.resolve example_env [who_option] (who "7") (start None)
  = (Ok (VEntity "role" 7),
     extend (start None) [EvGetOrFetch "member" 7; EvGetOrFetch "role" 7]).
Proof.
  apply (resolve_by_type example_env [who_option] (who "7") who_option
           (VStr "7") (start None) eq_refl eq_refl).
Defined.

(** A pair of the payload whose name is not in the schema makes [_invoke]
    raise [AttributeError] as soon as it is reached, after the pairs before
    it and before the callback; [invoke] then raises
    [ApplicationCommandInvokeError] carrying it, once the after-hooks have
    run. *)
Theorem invoke_unknown_option (env : Slash.Env) (bot : Bot)
    (self : Slash.SlashCommand) (pre post : list Arg) (a : Arg) (v : pyval)
    (w0 w w1 w4 : World) (kw1 : gmap string pyval) :
  prepare bot (Slash.base self) w0 = (Ok tt, w) →
  data_options (ctx w) = Some (pre ++ a :: post) →
  Slash.resolve_all env (Slash.options self) pre ∅ w = (Ok kw1, w1) →
  arg_value a = Some v →
  Slash.find_option (arg_name a) (Slash.options self) = None →
  call_after_hooks bot (Slash.base self) w1 = (Ok tt, w4) →
  Slash._invoke env self w = (Raise AttributeError, w1)
  ∧ invoke bot (Slash.base self) (Slash._invoke env self) w0
    = (Raise (ApplicationCommandInvokeError AttributeError), w4).
Proof.
  intros Hprep Hdata Hpre Hv Hf Hafter.
  assert (Slash._invoke env self w = (Raise AttributeError, w1)) as Hinv.
  { apply _invoke_raises with (opts := Slash.options self); [done |].
    rewrite Hdata. simpl. rewrite resolve_all_app, Hpre. simpl.
    unfold bind, Slash.resolve. by rewrite Hf, Hv. }
  split; [done |].
  rewrite (invoke_run _ _ _ _ _ _ _ Hprep Hinv), Hafter. done.
Qed.

Lemma invoke_unknown_option_witness :
  invoke quiet_bot (plain_command "greet")
    (Slash._invoke example_env mention_command)
    (start (Some [ {| arg_name := "whom"; arg_value := Some (VStr "7") |} ]))
  = (Raise (ApplicationCommandInvokeError AttributeError),
     {| ctx := {| ctx_command := Some "greet"; command_failed := false;
                  data_options :=
                    Some [ {| arg_name := "whom";
                              arg_value := Some (VStr "7") |} ] |};
        trace := [EvBotCanRun; EvCallAfterHooks] |}).
Proof.
  set (w0 := start (Some [ {| arg_name := "whom"; arg_value := Some (VStr "7") |} ])).
  set (w := (prepare quiet_bot (plain_command "greet") w0).2).
  apply (invoke_unknown_option example_env quiet_bot mention_command [] []
           {| arg_name := "whom"; arg_value := Some (VStr "7") |} (VStr "7")
           w0 w w _ ∅ eq_refl eq_refl eq_refl eq_refl eq_refl eq_refl).
Defined.

(** ** Construction of context-menu commands *)

(** A context-menu command is constructed exactly when the callback is a
    coroutine function, the name (the keyword [name], or the name of the
    callback when the keyword is not passed) is a string, of any form, and
    the callback has exactly two parameters; with the context parameter
    only, the error names "user" for a user command and "message" for a
    message command. *)
Theorem context_menu_init_spec (k : ContextMenu.kind) (func : ContextMenu.Func)
    (kwargs : ContextMenu.Kwargs) :
  (is_ok (ContextMenu.init k func kwargs) = true
   ↔ ContextMenu.f_is_coroutine func = true
     ∧ (∃ n, default (VStr (ContextMenu.f_name func)) (ContextMenu.kw_name kwargs)
             = VStr n)
     ∧ length (ContextMenu.f_params func) = 2)
  ∧ (ContextMenu.f_is_coroutine func = false →
     ContextMenu.init k func kwargs
     = Raise (TypeError "Callback must be a coroutine."))
  ∧ (∀ n p,
       ContextMenu.f_is_coroutine func = true →
       default (VStr (ContextMenu.f_name func)) (ContextMenu.kw_name kwargs)
       = VStr n →
       ContextMenu.f_params func = [p] →
       ContextMenu.init k func kwargs
       = Raise (Slash.missing_parameter n
                  (match k with
                   | ContextMenu.UserCommand => "user"
                   | ContextMenu.MessageCommand => "message"
                   end))).
Proof.
  unfold ContextMenu.init.
  replace (match ContextMenu.kw_name kwargs with
           | Some n => n
           | None => VStr (ContextMenu.f_name func)
           end)
    with (default (VStr (ContextMenu.f_name func)) (ContextMenu.kw_name kwargs))
    by by destruct (ContextMenu.kw_name kwargs).
  destruct (ContextMenu.f_is_coroutine func); simpl.
  2: { split; [split; [done | by intros (? & _)] | by split]. }
  split; [| split; [done |]].
  - destruct (default _ _) as [| | | n | |];
      try (split; [done | by intros (_ & (? & ?) & _)]).
    destruct (ContextMenu.f_params func) as [| p [| q [| r rest]]]; simpl;
      try (split; [done | by intros (_ & _ & ?)]).
    split; [| done]. intros _. eauto.
  - intros n p _ -> ->. reflexivity.
Qed.

Lemma context_menu_init_spec_witness :
  is_ok (ContextMenu.init ContextMenu.MessageCommand report_func report_kwargs)
  = true.
Proof.
  apply (context_menu_init_spec ContextMenu.MessageCommand report_func
           report_kwargs).
  split; [reflexivity |]. split; [by exists "Report Message" | reflexivity].
Defined.

(** ** Supplied values and defaults *)

(** A value supplied in the payload is what the callback receives under
    that name, whatever the default of the option and whatever an earlier
    pair of the same name supplied, as long as no later pair has that
    name. *)
Theorem supplied_value_wins (env : Slash.Env) (opts : list Options.Option)
    (pre post : list Arg) (a : Arg) (v : pyval) (kw1 kw3 : gmap string pyval)
    (w w1 w2 w3 : World) :
  Slash.resolve_all env opts pre ∅ w = (Ok kw1, w1) →
  Slash.resolve env opts a w1 = (Ok v, w2) →
  Slash.resolve_all env opts post (<[arg_name a := v]> kw1) w2 = (Ok kw3, w3) →
  arg_name a ∉ map arg_name post →
  Slash.resolve_all env opts (pre ++ a :: post) ∅ w = (Ok kw3, w3)
  ∧ Slash.fill_defaults opts kw3 !! arg_name a = Some v.
Proof.
  intros Hpre Ha Hpost Hfresh. split.
  - rewrite resolve_all_app, Hpre. simpl. unfold bind. by rewrite Ha.
  - rewrite fill_defaults_lookup.
    rewrite (resolve_all_keeps _ _ _ _ _ _ _ _ Hpost Hfresh).
    by rewrite lookup_insert_eq.
Qed.

Lemma supplied_value_wins_witness :
  Slash.fill_defaults [who_option] {[ "who" := VEntity "role" 7 ]} !! "who"
  = Some (VEntity "role" 7).
Proof.
  set (w := start None).
  set (w2 := extend w [EvGetOrFetch "member" 7; EvGetOrFetch "role" 7]).
  apply (supplied_value_wins example_env [who_option] [] [] (who "7")
           (VEntity "role" 7) ∅ {[ "who" := VEntity "role" 7 ]} w w w2 w2
           eq_refl eq_refl eq_refl).
  vm_compute. inversion 1.
Defined.

Lemma dispatch_error_outcome_witness :
  is_cancelled (ApplicationCommandInvokeError ValueError) = false
  ∧ (is_command_error (ApplicationCommandInvokeError ValueError) = true
     ∨ is_exception (ApplicationCommandInvokeError ValueError) = false).
Proof.
  apply (proj2 (dispatch_error_outcome quiet_bot guarded_command
                  (Exception "boom") (start None))).
  reflexivity.
Defined.

Lemma slash_eq_equivalence_witness :
  Slash.eq greet_command (Slash.ObjSlash greet_command) = true.
Proof.
  apply (proj2 (proj2 (slash_eq_equivalence greet_command greet_command
                         greet_command))); reflexivity.
Defined.
